(** * FastApiWebSocketTransport: a model of [fastapi_mcp/transport/websocket.py]

    The transport plays two roles.  As a server it runs one receive loop per
    inbound FastAPI WebSocket ([handle_fastapi_websocket]) and answers
    JSON-RPC requests through [_process_mcp_message].  As a client it keeps
    one outbound connection ([connect_to_external_websocket]), a listener
    task ([_listen_external_websocket]) and a table of pending requests that
    correlates responses with the callers of [send_to_external_websocket].

    Python objects are modelled by value where nothing aliases them and
    through an explicit store where something does: every [asyncio.Event] is
    a cell of the list [events], and [pending_requests] maps a key to the
    index of a cell.

    A coroutine is cut at the [await] where it can stay suspended for an
    unbounded time, [asyncio.wait_for] in a sender and [receive_text] in a
    session handler; the code between two such points runs as one step,
    with no other coroutine of the transport in between.  The listener task
    is taken from the moment it iterates over its connection; it ends when
    the connection goes down or when it is cancelled, and its [finally]
    block runs either way.  On the outbound connection [send] succeeds
    while the connection is open and [close] does not raise.  Logging is
    left out. *)

From Stdlib Require Import ZArith QArith Ascii String.
From stdpp Require Import gmap strings list fin_maps pretty.

Local Set Warnings "-register-all".

Local Open Scope Z_scope.
Local Open Scope string_scope.
Local Open Scope list_scope.

(** ** JSON values

    [dict] values are association lists in insertion order, which is what a
    Python [dict] literal and [model_dump] produce.  Numbers are the
    integers; the transport itself never builds another kind of number. *)

Inductive JSON : Type :=
| JNull
| JBool (b : bool)
| JInt (n : Z)
| JStr (s : string)
| JArr (l : list JSON)
| JObj (fields : list (string * JSON)).

(** A Python [dict] with [str] keys. *)
Abbreviation Dict := (list (string * JSON)) (only parsing).

(** [d.get(k)] *)
Fixpoint dict_get (k : string) (d : Dict) : option JSON :=
  match d with
  | [] => None
  | (k', v) :: rest => if String.eqb k k' then Some v else dict_get k rest
  end.

(** [list(d.keys())] *)
Definition dict_keys (d : Dict) : list string := d.*1.

(** ** JSON-RPC messages ([mcp.types])

    The classes of [mcp.types] are not part of the sources; the records
    have the fields that the transport reads and writes, which are those of
    the data model of the specification.  [RequestId] is [str | int].  The
    field [jsonrpc] is the literal ["2.0"] in every class and is left
    out. *)

Inductive RequestId : Type :=
| IdInt (n : Z)
| IdStr (s : string).

Global Instance RequestId_eq_dec : EqDecision RequestId.
Proof. solve_decision. Defined.

(** Python's [str(id)]: the decimal numeral of an [int], a [str] itself. *)
Definition str (i : RequestId) : string :=
  match i with
  | IdInt n => pretty n
  | IdStr s => s
  end.

Record JSONRPCRequest : Type := {
  req_id : RequestId;
  req_method : string;
  req_params : option Dict
}.

Record JSONRPCNotification : Type := {
  ntf_method : string;
  ntf_params : option Dict
}.

Record JSONRPCResponse : Type := {
  resp_id : RequestId;
  resp_result : Dict
}.

(** [data] is [Any | None]: Python's [None] is [JNull]. *)
Record ErrorData : Type := {
  code : Z;
  message : string;
  data : JSON
}.

(** Modelled from the spec: the class [JSONRPCError] of [mcp.types] is not
    part of the sources; its [id] is "id | null" in the data model of the
    specification, which is what a frame can carry. *)
Record JSONRPCError : Type := {
  err_id : option RequestId;
  error : ErrorData
}.

(** [JSONRPCError(jsonrpc="2.0", id=i, error=e)].  The class declares
    [id: RequestId], and pydantic validates the arguments of a constructor:
    [None] is no [RequestId], so the call raises a [ValidationError] and
    builds no object.  [id_refused] is the first line of its [str(e)]. *)
Definition id_refused : string := "1 validation error for JSONRPCError".

Definition JSONRPCError_new (i : option RequestId) (e : ErrorData)
  : string + JSONRPCError :=
  match i with
  | Some _ => inr {| err_id := i; error := e |}
  | None => inl id_refused
  end.

(** [JSONRPCMessage] is a root model over the four classes; [message.root]
    is the argument of the constructor. *)
Inductive JSONRPCMessage : Type :=
| RootRequest (r : JSONRPCRequest)
| RootNotification (n : JSONRPCNotification)
| RootResponse (r : JSONRPCResponse)
| RootError (e : JSONRPCError).

(** What [_process_mcp_message] hands back: the code returns a
    [JSONRPCResponse] or a [JSONRPCError] object (or [None]). *)
Inductive Reply : Type :=
| ReplyResponse (r : JSONRPCResponse)
| ReplyError (e : JSONRPCError).

(** [getattr(message.root, 'id', None)] *)
Definition root_id (m : JSONRPCMessage) : option RequestId :=
  match m with
  | RootRequest r => Some (req_id r)
  | RootNotification _ => None
  | RootResponse r => Some (resp_id r)
  | RootError e => err_id e
  end.

(** ** The injected MCP server

    [_process_mcp_message] only looks at [list_tools]: whether the attribute
    exists, and what awaiting it gives: an exception (its [str(e)]), a falsy
    result, or a result whose [tools] are dumped with [model_dump]. *)

Inductive ListToolsOutcome : Type :=
| ListToolsRaises (what : string)
| ListToolsFalsy
| ListToolsResult (dumped_tools : list JSON).

Record Server : Type := {
  list_tools : option ListToolsOutcome
}.

(** ** Protocol dispatcher: [_process_mcp_message] *)

Definition initialize_result : Dict :=
  [ ("protocolVersion", JStr "2024-11-05");
    ("capabilities",
       JObj [ ("tools", JObj []);
              ("resources", JObj []);
              ("prompts", JObj []);
              ("logging", JObj []) ]);
    ("serverInfo",
       JObj [ ("name", JStr "FastAPI-MCP WebSocket Server");
              ("version", JStr "0.4.0") ]) ].

Definition internal_error (i : option RequestId) (what : string) : JSONRPCError :=
  {| err_id := i;
     error := {| code := -32603;
                 message := "Internal error";
                 data := JObj [("error", JStr what)] |} |}.

Definition _process_mcp_message (mcp_server : Server) (msg : JSONRPCMessage)
  : option Reply :=
  match msg with
  | RootRequest r =>
      let method := req_method r in
      if String.eqb method "initialize" then
        Some (ReplyResponse {| resp_id := req_id r;
                               resp_result := initialize_result |})
      else if String.eqb method "tools/list" then
        match list_tools mcp_server with
        | Some (ListToolsRaises what) =>
            (* the [except Exception] arm of the method *)
            Some (ReplyError (internal_error (root_id msg) what))
        | Some (ListToolsResult tools) =>
            Some (ReplyResponse {| resp_id := req_id r;
                                   resp_result := [("tools", JArr tools)] |})
        | Some ListToolsFalsy | None =>
            Some (ReplyResponse {| resp_id := req_id r;
                                   resp_result := [("tools", JArr [])] |})
        end
      else
        Some (ReplyError
                {| err_id := Some (req_id r);
                   error := {| code := -32601;
                               message := "Method not found";
                               data := JObj [("method", JStr method)] |} |})
  | _ => None
  end.

(** ** Wire codec *)

(** Modelled from the spec: the codec is [JSONRPCMessage.model_validate_json]
    and [model_dump_json] of the pydantic models in [mcp.types], which are
    not part of the sources.  The specification fixes the frames (JSON-RPC
    2.0 text; a request is an object with [jsonrpc], [id], [method] and
    [params], a response one with [id] and [result], an error one with [id]
    or null and [error], a notification has no [id]) and the contract:
    [decode] fails with a parse error on a payload that does not have the
    shape of one of the four messages, [encode] is total.  [encode] writes
    JSON without white space; [decode] reads JSON with white space between
    the tokens. *)

Module Codec.

Definition chars (s : string) : list ascii := list_ascii_of_string s.

Definition is_ws (c : ascii) : bool :=
  Ascii.eqb c " " || Ascii.eqb c "010" || Ascii.eqb c "013" || Ascii.eqb c "009".

Fixpoint skip_ws (s : list ascii) : list ascii :=
  match s with
  | c :: rest => if is_ws c then skip_ws rest else s
  | [] => []
  end.

(** *** Strings: a quote, a backslash and the line breaks are escaped. *)

Definition escape_char (c : ascii) : list ascii :=
  if Ascii.eqb c "034" then ["092"; "034"]%char
  else if Ascii.eqb c "092" then ["092"; "092"]%char
  else if Ascii.eqb c "010" then ["092"; "n"]%char
  else if Ascii.eqb c "013" then ["092"; "r"]%char
  else if Ascii.eqb c "009" then ["092"; "t"]%char
  else [c].

Definition print_string (s : string) : list ascii :=
  "034"%char :: flat_map escape_char (chars s) ++ ["034"%char].

Definition unescape_char (c : ascii) : option ascii :=
  if Ascii.eqb c "034" then Some "034"%char
  else if Ascii.eqb c "092" then Some "092"%char
  else if Ascii.eqb c "n" then Some "010"%char
  else if Ascii.eqb c "r" then Some "013"%char
  else if Ascii.eqb c "t" then Some "009"%char
  else None.

(** Reads the characters of a string up to and with the closing quote. *)
Fixpoint parse_string_body (s : list ascii) : option (list ascii * list ascii) :=
  match s with
  | [] => None
  | c :: rest =>
      if Ascii.eqb c "034" then Some ([], rest)
      else if Ascii.eqb c "092" then
        match rest with
        | e :: rest' =>
            match unescape_char e, parse_string_body rest' with
            | Some c', Some (body, r) => Some (c' :: body, r)
            | _, _ => None
            end
        | [] => None
        end
      else
        match parse_string_body rest with
        | Some (body, r) => Some (c :: body, r)
        | None => None
        end
  end.

(** *** Numbers: the integers in decimal. *)

Definition digit_value (c : ascii) : option N :=
  let n := N_of_ascii c in
  if (48 <=? n)%N && (n <=? 57)%N then Some (n - 48)%N else None.

Definition is_digit (c : ascii) : bool :=
  match digit_value c with
  | Some _ => true
  | None => false
  end.

Fixpoint parse_digits (acc : N) (s : list ascii) : N * list ascii :=
  match s with
  | c :: rest =>
      match digit_value c with
      | Some d => parse_digits (10 * acc + d)%N rest
      | None => (acc, s)
      end
  | [] => (acc, [])
  end.

Definition parse_number (s : list ascii) : option (Z * list ascii) :=
  match s with
  | c :: rest =>
      if Ascii.eqb c "-" then
        match rest with
        | d :: _ =>
            if is_digit d then
              let '(n, r) := parse_digits 0 rest in Some (- Z.of_N n, r)
            else None
        | [] => None
        end
      else if is_digit c then
        let '(n, r) := parse_digits 0 s in Some (Z.of_N n, r)
      else None
  | [] => None
  end.

Definition print_number (n : Z) : list ascii := chars (pretty n).

(** *** Values *)

Fixpoint join (parts : list (list ascii)) : list ascii :=
  match parts with
  | [] => []
  | [part] => part
  | part :: rest => part ++ ","%char :: join rest
  end.

Fixpoint print (v : JSON) : list ascii :=
  match v with
  | JNull => chars "null"
  | JBool true => chars "true"
  | JBool false => chars "false"
  | JInt n => print_number n
  | JStr s => print_string s
  | JArr l => "["%char :: join (map print l) ++ ["]"%char]
  | JObj fields =>
      "{"%char
        :: join (map (fun kv => print_string kv.1 ++ ":"%char :: print kv.2) fields)
        ++ ["}"%char]
  end.

Fixpoint strip_prefix (prefix s : list ascii) : option (list ascii) :=
  match prefix, s with
  | [], _ => Some s
  | p :: prefix', c :: s' => if Ascii.eqb p c then strip_prefix prefix' s' else None
  | _ :: _, [] => None
  end.

Section Items.

Variable parse_value : list ascii -> option (JSON * list ascii).

(** [value ("," value)* "]"], at most [n] values. *)
Fixpoint parse_items (n : nat) (s : list ascii) : option (list JSON * list ascii) :=
  match n with
  | O => None
  | S n =>
      match parse_value s with
      | Some (v, rest) =>
          match skip_ws rest with
          | c :: rest' =>
              if Ascii.eqb c "," then
                match parse_items n rest' with
                | Some (vs, r) => Some (v :: vs, r)
                | None => None
                end
              else if Ascii.eqb c "]" then Some ([v], rest')
              else None
          | [] => None
          end
      | None => None
      end
  end.

(** [string ":" value ("," string ":" value)* "}"], at most [n] members. *)
Fixpoint parse_members (n : nat) (s : list ascii)
  : option (list (string * JSON) * list ascii) :=
  match n with
  | O => None
  | S n =>
      match skip_ws s with
      | q :: rest =>
          if Ascii.eqb q "034" then
            match parse_string_body rest with
            | Some (key, rest1) =>
                match skip_ws rest1 with
                | c :: rest2 =>
                    if Ascii.eqb c ":" then
                      match parse_value rest2 with
                      | Some (v, rest3) =>
                          let member := (string_of_list_ascii key, v) in
                          match skip_ws rest3 with
                          | d :: rest4 =>
                              if Ascii.eqb d "," then
                                match parse_members n rest4 with
                                | Some (ms, r) => Some (member :: ms, r)
                                | None => None
                                end
                              else if Ascii.eqb d "}" then Some ([member], rest4)
                              else None
                          | [] => None
                          end
                      | None => None
                      end
                    else None
                | [] => None
                end
            | None => None
            end
          else None
      | [] => None
      end
  end.

End Items.

Fixpoint parse_value (fuel : nat) (s : list ascii) : option (JSON * list ascii) :=
  match fuel with
  | O => None
  | S fuel =>
      match skip_ws s with
      | [] => None
      | c :: rest =>
          if Ascii.eqb c "n" then
            (fun r => (JNull, r)) <$> strip_prefix (chars "ull") rest
          else if Ascii.eqb c "t" then
            (fun r => (JBool true, r)) <$> strip_prefix (chars "rue") rest
          else if Ascii.eqb c "f" then
            (fun r => (JBool false, r)) <$> strip_prefix (chars "alse") rest
          else if Ascii.eqb c "034" then
            (fun '(body, r) => (JStr (string_of_list_ascii body), r))
              <$> parse_string_body rest
          else if Ascii.eqb c "[" then
            match skip_ws rest with
            | d :: rest' =>
                if Ascii.eqb d "]" then Some (JArr [], rest')
                else (fun '(vs, r) => (JArr vs, r))
                       <$> parse_items (parse_value fuel) fuel rest
            | [] => None
            end
          else if Ascii.eqb c "{" then
            match skip_ws rest with
            | d :: rest' =>
                if Ascii.eqb d "}" then Some (JObj [], rest')
                else (fun '(ms, r) => (JObj ms, r))
                       <$> parse_members (parse_value fuel) fuel rest
            | [] => None
            end
          else
            (fun '(n, r) => (JInt n, r)) <$> parse_number (c :: rest)
      end
  end.

Definition print_member (kv : string * JSON) : list ascii :=
  print_string kv.1 ++ ":"%char :: print kv.2.

(** A tail that does not go on with a digit: what follows a value. *)
Definition ends_number (tail : list ascii) : Prop :=
  match tail with
  | [] => True
  | c :: _ => is_digit c = false
  end.

(** The first character of a number. *)
Definition starts_number (c : ascii) : Prop := is_digit c = true \/ c = "-"%char.

Definition dumps (v : JSON) : string := string_of_list_ascii (print v).

Definition loads (text : string) : option JSON :=
  match parse_value (S (String.length text)) (chars text) with
  | Some (v, rest) =>
      match skip_ws rest with
      | [] => Some v
      | _ :: _ => None
      end
  | None => None
  end.

(** *** Messages *)

Definition id_to_json (i : RequestId) : JSON :=
  match i with
  | IdInt n => JInt n
  | IdStr s => JStr s
  end.

Definition id_from_json (v : JSON) : option RequestId :=
  match v with
  | JInt n => Some (IdInt n)
  | JStr s => Some (IdStr s)
  | _ => None
  end.

Definition params_to_json (p : option Dict) : JSON :=
  match p with
  | Some d => JObj d
  | None => JNull
  end.

(** An absent or null [params] is [None]; anything but an object is refused. *)
Definition params_from_json (v : option JSON) : option (option Dict) :=
  match v with
  | None | Some JNull => Some None
  | Some (JObj d) => Some (Some d)
  | Some _ => None
  end.

Definition to_json (m : JSONRPCMessage) : JSON :=
  match m with
  | RootRequest r =>
      JObj [ ("jsonrpc", JStr "2.0"); ("id", id_to_json (req_id r));
             ("method", JStr (req_method r));
             ("params", params_to_json (req_params r)) ]
  | RootNotification n =>
      JObj [ ("jsonrpc", JStr "2.0"); ("method", JStr (ntf_method n));
             ("params", params_to_json (ntf_params n)) ]
  | RootResponse r =>
      JObj [ ("jsonrpc", JStr "2.0"); ("id", id_to_json (resp_id r));
             ("result", JObj (resp_result r)) ]
  | RootError e =>
      JObj [ ("jsonrpc", JStr "2.0");
             ("id", from_option id_to_json JNull (err_id e));
             ("error", JObj [ ("code", JInt (code (error e)));
                              ("message", JStr (message (error e)));
                              ("data", data (error e)) ]) ]
  end.

Definition error_from_json (v : JSON) : option ErrorData :=
  match v with
  | JObj d =>
      match dict_get "code" d, dict_get "message" d with
      | Some (JInt c), Some (JStr m) =>
          Some {| code := c; message := m;
                  data := default JNull (dict_get "data" d) |}
      | _, _ => None
      end
  | _ => None
  end.

(** The four shapes, by the members present: [method] with or without
    [id], else [result], else [error]. *)
Definition from_json (v : JSON) : option JSONRPCMessage :=
  match v with
  | JObj d =>
      match dict_get "jsonrpc" d with
      | Some (JStr version) =>
          if negb (String.eqb version "2.0") then None
          else
            match dict_get "method" d with
            | Some (JStr method) =>
                match params_from_json (dict_get "params" d) with
                | Some params =>
                    match dict_get "id" d with
                    | None =>
                        Some (RootNotification
                                {| ntf_method := method; ntf_params := params |})
                    | Some i =>
                        (fun i => RootRequest {| req_id := i; req_method := method;
                                                 req_params := params |})
                          <$> id_from_json i
                    end
                | None => None
                end
            | Some _ => None
            | None =>
                match dict_get "result" d, dict_get "error" d, dict_get "id" d with
                | Some (JObj result), _, Some i =>
                    (fun i => RootResponse {| resp_id := i; resp_result := result |})
                      <$> id_from_json i
                | Some _, _, _ => None
                | None, Some e, Some JNull =>
                    (fun e => RootError {| err_id := None; error := e |})
                      <$> error_from_json e
                | None, Some e, Some i =>
                    match id_from_json i, error_from_json e with
                    | Some i, Some e => Some (RootError {| err_id := Some i; error := e |})
                    | _, _ => None
                    end
                | None, _, _ => None
                end
            end
      | _ => None
      end
  | _ => None
  end.

(** Modelled from the spec: [encode(Message) -> bytes], total. *)
Definition encode (m : JSONRPCMessage) : string := dumps (to_json m).

(** Modelled from the spec: [decode(bytes) -> Message], failing with a parse
    error ([inl], with its description) on a payload that is not one of
    the four messages. *)
Definition decode (text : string) : string + JSONRPCMessage :=
  match loads text with
  | None => inl "Invalid JSON"
  | Some v =>
      match from_json v with
      | Some m => inr m
      | None => inl "Invalid JSON-RPC message"
      end
  end.

End Codec.

(** ** Exceptions and durations

    Only the exceptions the transport raises or lets through are listed.
    [TimeoutError] is the [asyncio.TimeoutError] of [asyncio.wait_for].
    Durations are the source's [float] seconds; the transport stores them
    and passes them on, it never computes with them. *)

Inductive Exc : Type :=
| ConnectionError (msg : string)
| TimeoutError
| LibraryError (what : string).

Abbreviation Seconds := Q (only parsing).

(** ** The outbound connection ([websockets])

    What the transport observes of a client connection: its [closed] flag
    and the frames written with [send].  [websockets.connect] either raises
    or returns an open connection. *)

Record WebSocketClientProtocol : Type := {
  closed : bool;
  sent : list string
}.

Definition fresh_connection : WebSocketClientProtocol :=
  {| closed := false; sent := [] |}.

Record ConnectKwargs : Type := {
  kw_ping_interval : option Seconds;
  kw_ping_timeout : option Seconds;
  kw_close_timeout : option Seconds
}.

Inductive ConnectOutcome : Type :=
| Connects
| ConnectRaises (e : Exc).

(** The network as [websockets.connect] sees it: the outcome of a handshake
    is a function of the url and of the keyword arguments of the call. *)
Definition Network : Type := string -> ConnectKwargs -> ConnectOutcome.

(** The listener task: the transport only asks whether it is [done]. *)
Record Task : Type := {
  done : bool
}.

(** An exception that reaches the outer [try] of a session handler:
    whether it is a [WebSocketDisconnect], and its [str]. *)
Record SocketExc : Type := {
  is_disconnect : bool;
  exc_str : string
}.

(** An inbound FastAPI socket, scripted like the [AsyncMock] of the tests:
    [ws_send_script] says for the successive calls of [send_text] whether
    they raise (every call succeeds once the script is used up), [ws_sent]
    collects the frames written, [ws_close_raises] is what [close] raises. *)
Record WebSocket : Type := {
  ws_send_script : list (option SocketExc);
  ws_sent : list string;
  ws_closed : bool;
  ws_close_raises : option string
}.

(** What a call of [receive_text] gives. *)
Inductive Received : Type :=
| RecvText (data : string)
| RecvRaises (e : SocketExc).

(** ** The transport object

    Fields as assigned in [__init__].  [connection_lock] is free whenever
    an operation starts and is left out.  [events] is the store of the
    [asyncio.Event] objects created so far: cell [i] is [true] once
    [set()] was called on event [i]. *)

Record FastApiWebSocketTransport : Type := {
  mcp_server : Server;
  external_ws_url : option string;
  connection_timeout : Seconds;
  ping_interval : option Seconds;
  ping_timeout : option Seconds;
  close_timeout : option Seconds;
  active_connections : gmap string WebSocket;
  external_ws_connection : option WebSocketClientProtocol;
  external_connection_task : option Task;
  pending_requests : gmap string nat;
  responses : gmap string JSONRPCResponse;
  events : list bool
}.

Definition __init__ (srv : Server) (url : option string)
    (connection_timeout : Seconds)
    (ping_interval ping_timeout close_timeout : option Seconds)
  : FastApiWebSocketTransport :=
  {| mcp_server := srv;
     external_ws_url := url;
     connection_timeout := connection_timeout;
     ping_interval := ping_interval;
     ping_timeout := ping_timeout;
     close_timeout := close_timeout;
     active_connections := ∅;
     external_ws_connection := None;
     external_connection_task := None;
     pending_requests := ∅;
     responses := ∅;
     events := [] |}.

Definition set_connection_timeout (x : Seconds) (t : FastApiWebSocketTransport)
  : FastApiWebSocketTransport :=
  {| mcp_server := mcp_server t;
     external_ws_url := external_ws_url t;
     connection_timeout := x;
     ping_interval := ping_interval t;
     ping_timeout := ping_timeout t;
     close_timeout := close_timeout t;
     active_connections := active_connections t;
     external_ws_connection := external_ws_connection t;
     external_connection_task := external_connection_task t;
     pending_requests := pending_requests t;
     responses := responses t;
     events := events t |}.

Definition set_active_connections (a : gmap string WebSocket)
    (t : FastApiWebSocketTransport) : FastApiWebSocketTransport :=
  {| mcp_server := mcp_server t;
     external_ws_url := external_ws_url t;
     connection_timeout := connection_timeout t;
     ping_interval := ping_interval t;
     ping_timeout := ping_timeout t;
     close_timeout := close_timeout t;
     active_connections := a;
     external_ws_connection := external_ws_connection t;
     external_connection_task := external_connection_task t;
     pending_requests := pending_requests t;
     responses := responses t;
     events := events t |}.

(** The client half of the object, replaced as a whole. *)
Definition set_external (c : option WebSocketClientProtocol) (k : option Task)
    (p : gmap string nat) (r : gmap string JSONRPCResponse) (e : list bool)
    (t : FastApiWebSocketTransport) : FastApiWebSocketTransport :=
  {| mcp_server := mcp_server t;
     external_ws_url := external_ws_url t;
     connection_timeout := connection_timeout t;
     ping_interval := ping_interval t;
     ping_timeout := ping_timeout t;
     close_timeout := close_timeout t;
     active_connections := active_connections t;
     external_ws_connection := c;
     external_connection_task := k;
     pending_requests := p;
     responses := r;
     events := e |}.

Definition set_connection (c : option WebSocketClientProtocol)
    (t : FastApiWebSocketTransport) : FastApiWebSocketTransport :=
  set_external c (external_connection_task t) (pending_requests t)
    (responses t) (events t) t.

Definition set_waiting (p : gmap string nat) (r : gmap string JSONRPCResponse)
    (e : list bool) (t : FastApiWebSocketTransport) : FastApiWebSocketTransport :=
  set_external (external_ws_connection t) (external_connection_task t) p r e t.

(** [self.external_ws_connection and not self.external_ws_connection.closed] *)
Definition connection_live (t : FastApiWebSocketTransport) : bool :=
  match external_ws_connection t with
  | Some c => negb (closed c)
  | None => false
  end.

(** [self.external_connection_task and not self.external_connection_task.done()] *)
Definition listener_running (t : FastApiWebSocketTransport) : bool :=
  match external_connection_task t with
  | Some k => negb (done k)
  | None => false
  end.

(** ** Outcomes of the operations *)

(** How a call of a coroutine ends. *)
Inductive Completion : Type :=
| Returns
| Raises (e : Exc).

(** [send_to_external_websocket] raises, returns, or is left waiting on
    an event under a key of the table. *)
Inductive SendResult : Type :=
| SendRaises (e : Exc)
| SendReturns (r : option JSONRPCResponse)
| SendWaiting (request_id : string) (response_event : nat).

(** How the [while True] loop stands once the received texts are used up. *)
Inductive SessionEnd : Type :=
| AwaitingText
| Disconnected
| Failed (what : string).

(** ** Operations of the transport

    The wire codec is the pydantic model [JSONRPCMessage] of [mcp.types]:
    [model_validate_json] returns a message or raises a [ValidationError]
    (kept as its [str]), [model_dump_json] renders a message.  The
    operations are given for any such pair. *)

Section Transport.

Variable model_validate_json : string -> string + JSONRPCMessage.
Variable model_dump_json : JSONRPCMessage -> string.

(** *** [connect_to_external_websocket] *)

Definition connect_kwargs (t : FastApiWebSocketTransport) : ConnectKwargs :=
  {| kw_ping_interval := ping_interval t;
     kw_ping_timeout := ping_timeout t;
     kw_close_timeout := close_timeout t |}.

Definition connect_to_external_websocket (net : Network)
    (t : FastApiWebSocketTransport) (url : string)
  : FastApiWebSocketTransport * Completion :=
  if connection_live t then
    (* logger.warning("Already connected to external WebSocket"); return *)
    (t, Returns)
  else
    match net url (connect_kwargs t) with
    | Connects =>
        (set_external (Some fresh_connection) (Some {| done := false |})
           (pending_requests t) (responses t) (events t) t,
         Returns)
    | ConnectRaises e =>
        (* except Exception as e: logger.error(...); raise *)
        (t, Raises e)
    end.

(** *** [send_to_external_websocket]

    The call is cut at [await asyncio.wait_for(response_event.wait(), 30.0)].
    [send_to_external_websocket] runs up to that point; [finish_send] is the
    rest of the call, run when the waiting coroutine is resumed. *)

(** [request_id]: [None] unless [message.root] has an attribute [id], else
    [str(message.root.id)]; [str(None)] is ["None"]. *)
Definition request_id_of (message : JSONRPCMessage) : option string :=
  match message with
  | RootRequest r => Some (str (req_id r))
  | RootNotification _ => None
  | RootResponse r => Some (str (resp_id r))
  | RootError e => Some (from_option str "None" (err_id e))
  end.

Definition is_request (message : JSONRPCMessage) : bool :=
  match message with
  | RootRequest _ => true
  | _ => false
  end.

(** Truth value of a [str]: the empty string is false. *)
Definition truthy (s : string) : bool := negb (String.eqb s EmptyString).

Definition ws_send (c : WebSocketClientProtocol) (frame : string)
  : WebSocketClientProtocol :=
  {| closed := closed c; sent := sent c ++ [frame] |}.

Definition send_to_external_websocket (t : FastApiWebSocketTransport)
    (message : JSONRPCMessage) : FastApiWebSocketTransport * SendResult :=
  match external_ws_connection t with
  | None => (t, SendRaises (ConnectionError "Not connected to external WebSocket"))
  | Some c =>
      if closed c then
        (t, SendRaises (ConnectionError "Not connected to external WebSocket"))
      else
        let message_json := model_dump_json message in
        (* await self.external_ws_connection.send(message_json) *)
        let t1 := set_connection (Some (ws_send c message_json)) t in
        match request_id_of message with
        | Some request_id =>
            if truthy request_id && is_request message then
              (* response_event = asyncio.Event() *)
              let response_event := length (events t1) in
              (set_waiting (<[request_id := response_event]> (pending_requests t1))
                 (responses t1) (events t1 ++ [false]) t1,
               SendWaiting request_id response_event)
            else (t1, SendReturns None)
        | None => (t1, SendReturns None)
        end
  end.

(** Several callers, one after the other, each up to its [await]. *)
Fixpoint send_requests (t : FastApiWebSocketTransport) (reqs : list JSONRPCRequest)
  : FastApiWebSocketTransport * list SendResult :=
  match reqs with
  | [] => (t, [])
  | r :: reqs' =>
      let '(t1, o) := send_to_external_websocket t (RootRequest r) in
      let '(t2, os) := send_requests t1 reqs' in
      (t2, o :: os)
  end.

(** The event of a waiting call is set. *)
Definition is_set (t : FastApiWebSocketTransport) (response_event : nat) : bool :=
  default false (events t !! response_event).

(** The waiting call runs again: either its event was set, and it returns
    [self.responses.pop(request_id, None)], or the 30 seconds of [wait_for]
    are over and [asyncio.TimeoutError] goes through [finally] and the outer
    [except ... raise].  Both ways [finally] pops the pending entry. *)
Definition finish_send (t : FastApiWebSocketTransport)
    (request_id : string) (response_event : nat)
  : FastApiWebSocketTransport * SendResult :=
  if is_set t response_event then
    (set_waiting (delete request_id (pending_requests t))
       (delete request_id (responses t)) (events t) t,
     SendReturns (responses t !! request_id))
  else
    (set_waiting (delete request_id (pending_requests t))
       (responses t) (events t) t,
     SendRaises TimeoutError).

(** *** [_listen_external_websocket] *)

(** The body of [async for message in self.external_ws_connection]. *)
Definition on_external_message (t : FastApiWebSocketTransport) (message : string)
  : FastApiWebSocketTransport :=
  match model_validate_json message with
  | inl _ =>
      (* except ValidationError: logger.error *)
      t
  | inr (RootResponse r) =>
      let response_id := str (resp_id r) in
      match pending_requests t !! response_id with
      | Some ev =>
          set_waiting (pending_requests t)
            (<[response_id := r]> (responses t))
            (<[ev := true]> (events t)) t
      | None =>
          (* logger.warning("Received response for unknown request ID") *)
          t
      end
  | inr _ =>
      (* _process_external_message: logger.info *)
      t
  end.

(** [for event in self.pending_requests.values(): event.set()] *)
Definition set_all (evs : list nat) (store : list bool) : list bool :=
  foldr (fun ev acc => <[ev := true]> acc) store evs.

(** The [finally] block of the listener, and the task is over. *)
Definition listener_finally (t : FastApiWebSocketTransport)
  : FastApiWebSocketTransport :=
  set_external (external_ws_connection t) (Some {| done := true |}) ∅
    (responses t) (set_all (map_to_list (pending_requests t)).*2 (events t)) t.

(** The connection goes down under a running listener: the socket is
    closed, the iteration ends ([ConnectionClosed] or exhaustion) and the
    [finally] block runs. *)
Definition connection_lost (t : FastApiWebSocketTransport)
  : FastApiWebSocketTransport :=
  let c := external_ws_connection t in
  listener_finally
    (set_connection
       (c ≫= fun c => Some {| closed := true; sent := sent c |}) t).

(** *** [disconnect_external_websocket] *)

Definition disconnect_external_websocket (t : FastApiWebSocketTransport)
  : FastApiWebSocketTransport :=
  (* task.cancel(); await task: CancelledError runs the listener's [finally] *)
  let t1 := if listener_running t then listener_finally t else t in
  if connection_live t1 then
    (* await self.external_ws_connection.close() *)
    set_connection
      (external_ws_connection t1 ≫= fun c =>
         Some {| closed := true; sent := sent c |}) t1
  else t1.

(** *** [shutdown] *)

(** [try: await websocket.close() except Exception: logger.error] *)
Definition close_session (w : WebSocket) : WebSocket :=
  match ws_close_raises w with
  | Some _ => w
  | None => {| ws_send_script := ws_send_script w;
               ws_sent := ws_sent w;
               ws_closed := true;
               ws_close_raises := None |}
  end.

(** Returns the transport and the sockets after the loop over
    [list(self.active_connections.items())]. *)
Definition shutdown (t : FastApiWebSocketTransport)
  : FastApiWebSocketTransport * list (string * WebSocket) :=
  let closed_sessions :=
    (fun '(session_id, w) => (session_id, close_session w))
      <$> map_to_list (active_connections t) in
  (disconnect_external_websocket (set_active_connections ∅ t), closed_sessions).

(** *** [handle_fastapi_websocket] *)

(** The socket after a call of [send_text] that went through, and after
    one that raised. *)
Definition ws_written (w : WebSocket) (frame : string) : WebSocket :=
  {| ws_send_script := tail (ws_send_script w);
     ws_sent := ws_sent w ++ [frame];
     ws_closed := ws_closed w;
     ws_close_raises := ws_close_raises w |}.

Definition ws_refused (w : WebSocket) : WebSocket :=
  {| ws_send_script := tail (ws_send_script w);
     ws_sent := ws_sent w;
     ws_closed := ws_closed w;
     ws_close_raises := ws_close_raises w |}.

(** The next call of [send_text] does not raise. *)
Definition send_succeeds (w : WebSocket) : bool :=
  match ws_send_script w with
  | Some _ :: _ => false
  | _ => true
  end.

Definition send_text (w : WebSocket) (frame : string)
  : WebSocket * option SocketExc :=
  match ws_send_script w with
  | Some e :: _ => (ws_refused w, Some e)
  | _ => (ws_written w frame, None)
  end.

(** The [ErrorData] objects of the two [except] arms of the loop. *)
Definition parse_error (validation_error : string) : ErrorData :=
  {| code := -32700;
     message := "Parse error";
     data := JObj [("validation_error", JStr validation_error)] |}.

Definition loop_error (what : string) : ErrorData :=
  {| code := -32603;
     message := "Internal error";
     data := JObj [("error", JStr what)] |}.

Definition reply_root (r : Reply) : JSONRPCMessage :=
  match r with
  | ReplyResponse r => RootResponse r
  | ReplyError e => RootError e
  end.

(** The two statements of an [except] arm of the loop:
    [error_response = JSONRPCError(jsonrpc="2.0", id=None, error=e)], then
    [await websocket.send_text(error_response.model_dump_json())].  An
    exception of either statement is raised inside the arm. *)
Definition send_error (w : WebSocket) (e : ErrorData)
  : WebSocket * option SocketExc :=
  match JSONRPCError_new None e with
  | inl what => (w, Some {| is_disconnect := false; exc_str := what |})
  | inr error_response => send_text w (model_dump_json (RootError error_response))
  end.

(** The inner [try] statement of the loop for one received text.  The
    exception in the result is one raised inside an [except] arm, which
    leaves the statement. *)
Definition answer (srv : Server) (w : WebSocket) (data : string)
  : WebSocket * option SocketExc :=
  match model_validate_json data with
  | inl validation_error =>
      (* except ValidationError as e *)
      send_error w (parse_error validation_error)
  | inr message =>
      match _process_mcp_message srv message with
      | None => (w, None)
      | Some response =>
          match send_text w (model_dump_json (reply_root response)) with
          | (w1, None) => (w1, None)
          | (w1, Some e) =>
              (* except Exception as e *)
              send_error w1 (loop_error (exc_str e))
          end
      end
  end.

Definition outer_except (e : SocketExc) : SessionEnd :=
  if is_disconnect e then Disconnected else Failed (exc_str e).

Fixpoint receive_loop (srv : Server) (incoming : list Received) (w : WebSocket)
  : WebSocket * SessionEnd :=
  match incoming with
  | [] => (w, AwaitingText)
  | RecvRaises e :: _ => (w, outer_except e)
  | RecvText data :: rest =>
      match answer srv w data with
      | (w1, None) => receive_loop srv rest w1
      | (w1, Some e) => (w1, outer_except e)
      end
  end.

(** [uuid] is the value [str(uuid4())] takes when [session_id] is [None]. *)
Definition handle_fastapi_websocket (t : FastApiWebSocketTransport)
    (w : WebSocket) (incoming : list Received)
    (session_id : option string) (uuid : string)
  : FastApiWebSocketTransport * WebSocket * SessionEnd :=
  let session_id := default uuid session_id in
  let t1 := set_active_connections (<[session_id := w]> (active_connections t)) t in
  match receive_loop (mcp_server t) incoming w with
  | (w1, AwaitingText) => (t1, w1, AwaitingText)
  | (w1, stop) =>
      (* finally: if session_id in self.active_connections: del ... *)
      (set_active_connections (delete session_id (active_connections t1)) t1,
       w1, stop)
  end.

(** The [finally] block of a handler that was left awaiting a text. *)
Definition session_cleanup (t : FastApiWebSocketTransport) (session_id : string)
  : FastApiWebSocketTransport :=
  set_active_connections (delete session_id (active_connections t)) t.

(** ** Reachable states

    A step is one operation of the transport, run from start to the point
    where it returns or suspends; the suspended calls are the waiting
    senders and the handlers awaiting a text.  The listener handles a
    message, or loses its connection, only while its task runs. *)

Inductive step : FastApiWebSocketTransport -> FastApiWebSocketTransport -> Prop :=
| step_connect net t url :
    step t (connect_to_external_websocket net t url).1
| step_send t message :
    step t (send_to_external_websocket t message).1
| step_finish t request_id response_event :
    step t (finish_send t request_id response_event).1
| step_message t message :
    listener_running t = true ->
    step t (on_external_message t message)
| step_lost t :
    listener_running t = true ->
    step t (connection_lost t)
| step_disconnect t :
    step t (disconnect_external_websocket t)
| step_shutdown t :
    step t (shutdown t).1
| step_handle t w incoming session_id uuid :
    step t (handle_fastapi_websocket t w incoming session_id uuid).1.1
| step_cleanup t session_id :
    step t (session_cleanup t session_id).

Inductive reachable : FastApiWebSocketTransport -> Prop :=
| reachable_init srv url ct pi pt clt :
    reachable (__init__ srv url ct pi pt clt)
| reachable_step t t' :
    reachable t -> step t t' -> reachable t'.

End Transport.

Arguments reachable _ _ _ : clear implicits.

(** ** Invariants of the reachable states *)

(** Every pending entry points at an allocated event. *)
Definition pending_allocated (t : FastApiWebSocketTransport) : Prop :=
  forall request_id ev,
    pending_requests t !! request_id = Some ev -> (ev < length (events t))%nat.

(** A live connection has its listener, and so has a non-empty table. *)
Definition listener_serves (t : FastApiWebSocketTransport) : Prop :=
  (connection_live t = true -> listener_running t = true) /\
  (pending_requests t <> ∅ -> listener_running t = true).

Definition transport_inv (t : FastApiWebSocketTransport) : Prop :=
  pending_allocated t /\ listener_serves t.

(** ** Induction on JSON values, through the lists of arrays and objects *)

Section JSON_induction.

Variable P : JSON -> Prop.
Hypothesis Hnull : P JNull.
Hypothesis Hbool : forall b, P (JBool b).
Hypothesis Hint : forall n, P (JInt n).
Hypothesis Hstr : forall s, P (JStr s).
Hypothesis Harr : forall l, Forall P l -> P (JArr l).
Hypothesis Hobj : forall fields, Forall (fun kv => P kv.2) fields -> P (JObj fields).

Fixpoint JSON_nested_ind (v : JSON) : P v :=
  match v with
  | JNull => Hnull
  | JBool b => Hbool b
  | JInt n => Hint n
  | JStr s => Hstr s
  | JArr l =>
      Harr l ((fix go (l : list JSON) : Forall P l :=
                 match l with
                 | [] => @List.Forall_nil _ P
                 | x :: r => @List.Forall_cons _ P x r (JSON_nested_ind x) (go r)
                 end) l)
  | JObj fields =>
      Hobj fields
        ((fix go (fs : list (string * JSON)) : Forall (fun kv => P kv.2) fs :=
            match fs with
            | [] => @List.Forall_nil _ (fun kv => P kv.2)
            | kv :: r =>
                @List.Forall_cons _ (fun kv => P kv.2) kv r
                  (JSON_nested_ind kv.2) (go r)
            end) fields)
  end.

End JSON_induction.

(** ** Concrete transports used in the examples below *)

Definition bare_server : Server := {| list_tools := None |}.

(** A network on which every handshake completes. *)
Definition open_network : Network := fun _ _ => Connects.

Definition fresh_transport : FastApiWebSocketTransport :=
  __init__ bare_server None 30%Q (Some 20%Q) (Some 20%Q) (Some 10%Q).

Definition connected_transport : FastApiWebSocketTransport :=
  (connect_to_external_websocket open_network fresh_transport "ws://peer/mcp").1.

Definition request (i : RequestId) (method : string) : JSONRPCRequest :=
  {| req_id := i; req_method := method; req_params := Some [] |}.

Definition tools_request (i : RequestId) : JSONRPCRequest := request i "tools/list".

(** One caller waits for the answer to request ["1"]. *)
Definition waiting_transport : FastApiWebSocketTransport :=
  (send_to_external_websocket Codec.encode connected_transport
     (RootRequest (tools_request (IdStr "1")))).1.

(** Two callers wait under the key ["1"]: the registration of the second
    replaced the entry of the first, whose event is cell 0. *)
Definition displaced_transport : FastApiWebSocketTransport :=
  (send_to_external_websocket Codec.encode waiting_transport
     (RootRequest (tools_request (IdStr "1")))).1.

Definition quiet_socket : WebSocket :=
  {| ws_send_script := []; ws_sent := []; ws_closed := false;
     ws_close_raises := None |}.

(** One caller waits, and one inbound session awaits its next text. *)
Definition busy_transport : FastApiWebSocketTransport :=
  (handle_fastapi_websocket Codec.decode Codec.encode waiting_transport
     quiet_socket [] (Some "session-1") "uuid").1.1.

Definition tools_response (i : RequestId) : JSONRPCResponse :=
  {| resp_id := i; resp_result := [("tools", JArr [])] |}.

(** A text that is JSON, holds the id ["7"] and is no JSON-RPC message:
    its [method] is a number. *)
Definition malformed_text : string :=
  Codec.dumps (JObj [("jsonrpc", JStr "2.0"); ("id", JStr "7"); ("method", JInt 5)]).

(** A socket whose first [send_text] raises. *)
Definition failing_socket : WebSocket :=
  {| ws_send_script := [Some {| is_disconnect := false; exc_str := "send failed" |}];
     ws_sent := []; ws_closed := false; ws_close_raises := None |}.


(** ** What the receive loop writes for a text

    The frame that the inner [try] of [handle_fastapi_websocket] sends for
    one received text that validates, when [send_text] does not raise: the
    reply of [_process_mcp_message] for a message that has one, nothing
    otherwise.  Nothing is written for a text that does not validate. *)

Section Replies.

Variable model_validate_json : string -> string + JSONRPCMessage.
Variable model_dump_json : JSONRPCMessage -> string.

Definition reply_frame (srv : Server) (text : string) : option string :=
  match model_validate_json text with
  | inl validation_error => None
  | inr message =>
      (fun response => model_dump_json (reply_root response))
        <$> _process_mcp_message srv message
  end.

End Replies.

(** ** A caller: [test_external_connection] of [examples/11_websocket_client_example.py]

    The example connects, sends [initialize] under the id ["1"] and
    [tools/list] under the id ["2"], awaiting each call, and disconnects in
    its [finally] block; an exception of a step skips the steps after it.
    [arrivals] are the messages that the listener handles while a call
    waits; the call then ends by its response or by its timeout. *)

Section Caller.

Variable model_validate_json : string -> string + JSONRPCMessage.
Variable model_dump_json : JSONRPCMessage -> string.

(** [await self.send_to_external_websocket(message)], run to its end. *)
Definition await_send (t : FastApiWebSocketTransport) (message : JSONRPCMessage)
    (arrivals : list string) : FastApiWebSocketTransport * SendResult :=
  match send_to_external_websocket model_dump_json t message with
  | (t1, SendWaiting request_id response_event) =>
      finish_send (foldl (on_external_message model_validate_json) t1 arrivals)
        request_id response_event
  | ended => ended
  end.

Definition init_request : JSONRPCRequest :=
  {| req_id := IdStr "1";
     req_method := "initialize";
     req_params :=
       Some [ ("protocolVersion", JStr "2024-11-05");
              ("capabilities",
                 JObj [ ("tools", JObj []); ("resources", JObj []);
                        ("prompts", JObj []) ]);
              ("clientInfo",
                 JObj [ ("name", JStr "FastAPI-MCP WebSocket Client");
                        ("version", JStr "0.4.0") ]) ] |}.

Definition tools_list_request : JSONRPCRequest :=
  {| req_id := IdStr "2"; req_method := "tools/list"; req_params := Some [] |}.

(** [url] is [EXTERNAL_WS_URL]. *)
Definition test_external_connection (net : Network) (url : string)
    (t : FastApiWebSocketTransport) (arrivals1 arrivals2 : list string)
  : FastApiWebSocketTransport :=
  match connect_to_external_websocket net t url with
  | (t1, Raises _) => disconnect_external_websocket t1
  | (t1, Returns) =>
      match await_send t1 (RootRequest init_request) arrivals1 with
      | (t2, SendRaises _) => disconnect_external_websocket t2
      | (t2, _) =>
          disconnect_external_websocket
            (await_send t2 (RootRequest tools_list_request) arrivals2).1
      end
  end.

End Caller.

(** Each table entry points at an event of its own. *)
Definition pending_injective (t : FastApiWebSocketTransport) : Prop :=
  forall k1 k2 ev,
    pending_requests t !! k1 = Some ev -> pending_requests t !! k2 = Some ev ->
    k1 = k2.

(** ** More concrete inputs *)

(** A session whose [close] raises. *)
Definition stubborn_socket : WebSocket :=
  {| ws_send_script := []; ws_sent := []; ws_closed := false;
     ws_close_raises := Some "close failed" |}.

(** Two inbound sessions await a text; the [close] of the second raises. *)
Definition two_sessions_transport : FastApiWebSocketTransport :=
  (handle_fastapi_websocket Codec.decode Codec.encode busy_transport
     stubborn_socket [] None "uuid-2").1.1.

(** The response to request ["1"] has arrived and its caller has not run
    yet. *)
Definition answered_transport : FastApiWebSocketTransport :=
  on_external_message Codec.decode waiting_transport
    (Codec.encode (RootResponse (tools_response (IdStr "1")))).

(** A network on which no handshake completes. *)
Definition closed_network : Network :=
  fun _ _ => ConnectRaises (LibraryError "handshake failed").

Definition notification (method : string) : JSONRPCNotification :=
  {| ntf_method := method; ntf_params := None |}.

(** A server whose [list_tools] raises. *)
Definition broken_server : Server :=
  {| list_tools := Some (ListToolsRaises "registry unavailable") |}.

(** * Properties *)

(** Membership in a list that is written out. *)
Ltac list_member :=
  repeat (apply elem_of_cons; first [left; reflexivity | right]).
Ltac list_no_member H :=
  repeat (apply elem_of_cons in H as [H|H]; [discriminate H|]);
  by apply elem_of_nil in H.

(** ** The event store *)

Lemma set_all_length evs store : length (set_all evs store) = length store.
Proof.
  induction evs as [|ev evs IH]; simpl; [done|].
  by rewrite length_insert.
Qed.

Lemma set_all_elem evs (store : list bool) ev :
  ev ∈ evs -> (ev < length store)%nat -> set_all evs store !! ev = Some true.
Proof.
  induction evs as [|ev' evs IH]; simpl; intros Hin Hlt.
  - by apply elem_of_nil in Hin.
  - destruct (decide (ev' = ev)) as [->|Hne].
    + apply list_lookup_insert_eq. by rewrite set_all_length.
    + rewrite list_lookup_insert_ne by done.
      apply IH; [|done]. apply elem_of_cons in Hin as [?|?]; congruence.
Qed.

Lemma set_all_other evs (store : list bool) ev :
  ev ∉ evs -> set_all evs store !! ev = store !! ev.
Proof.
  induction evs as [|ev' evs IH]; simpl; intros Hin; [done|].
  apply not_elem_of_cons in Hin as [Hne Hin].
  rewrite list_lookup_insert_ne by done. by apply IH.
Qed.

(** ** Invariants of the reachable states *)

Section Invariants.

Variable model_validate_json : string -> string + JSONRPCMessage.
Variable model_dump_json : JSONRPCMessage -> string.

Local Abbreviation reachable := (reachable model_validate_json model_dump_json).
Local Abbreviation step := (step model_validate_json model_dump_json).
Local Abbreviation on_external_message := (on_external_message model_validate_json).
Local Abbreviation send_to_external_websocket :=
  (send_to_external_websocket model_dump_json).

Lemma init_inv srv url ct pi pt clt : transport_inv (__init__ srv url ct pi pt clt).
Proof.
  split; [|split]; unfold __init__; simpl.
  - intros k ev H. simpl in H. by rewrite lookup_empty in H.
  - done.
  - done.
Qed.

Lemma listener_finally_inv t :
  connection_live t = false -> transport_inv (listener_finally t).
Proof.
  intros Hdead. split; [|split]; simpl.
  - intros k ev H. simpl in H. by rewrite lookup_empty in H.
  - unfold connection_live in *. simpl. by rewrite Hdead.
  - done.
Qed.

Lemma disconnect_inv t :
  transport_inv t -> transport_inv (disconnect_external_websocket t).
Proof.
  intros Hinv. pose proof Hinv as (Hwf & Hlive & Hpend).
  unfold disconnect_external_websocket.
  destruct (listener_running t) eqn:Hrun.
  - destruct (connection_live (listener_finally t)) eqn:Hl.
    + split; [|split]; simpl.
      * intros k ev H. simpl in H. by rewrite lookup_empty in H.
      * unfold connection_live. simpl.
        destruct (external_ws_connection t); simpl; done.
      * done.
    + by apply listener_finally_inv.
  - destruct (connection_live t) eqn:Hl; [|done].
    specialize (Hlive eq_refl). congruence.
Qed.

Lemma step_inv t t' : transport_inv t -> step t t' -> transport_inv t'.
Proof.
  intros Hinv Hstep. pose proof Hinv as (Hwf & Hlive & Hpend).
  destruct Hstep as [net t url|t msg|t request_id response_event|t msg Hrun
                    |t Hrun|t|t|t w incoming session_id uuid|t session_id].
  - (* connect *)
    unfold connect_to_external_websocket.
    destruct (connection_live t) eqn:Hl; [done|].
    destruct (net url (connect_kwargs t)); [|done].
    split; [|split]; simpl; done.
  - (* send *)
    unfold send_to_external_websocket.
    destruct (external_ws_connection t) as [c|] eqn:Hc; [|done].
    destruct (closed c) eqn:Hcl; [done|].
    assert (listener_running t = true) as Hrun.
    { apply Hlive. unfold connection_live. by rewrite Hc, Hcl. }
    assert (transport_inv (set_connection (Some (ws_send c (model_dump_json msg))) t)).
    { split; [|split]; simpl; done. }
    destruct (request_id_of msg) as [k|]; [|done].
    destruct (truthy k && is_request msg); [|done].
    split; [|split]; simpl; [|done|done].
    intros k' ev. simpl. rewrite length_app. simpl.
    destruct (decide (k = k')) as [->|Hne].
    + rewrite lookup_insert_eq. intros [= <-]. lia.
    + rewrite lookup_insert_ne by done. intros H'%Hwf. lia.
  - (* finish *)
    assert (forall m : gmap string nat, delete request_id m <> ∅ -> m <> ∅) as Hne.
    { intros m H ->. by rewrite delete_empty in H. }
    unfold finish_send.
    destruct (is_set t response_event); (split; [|split]; simpl; [|done|by eauto]);
      intros k ev; simpl; intros [_ H]%lookup_delete_Some; eauto.
  - (* message *)
    unfold on_external_message.
    destruct (model_validate_json msg) as [|[| |r|]]; try done.
    destruct (pending_requests t !! str (resp_id r)); [|done].
    split; [|split]; simpl; [|done|done].
    intros k ev'. simpl. intros H'%Hwf. by rewrite length_insert.
  - (* lost *)
    apply listener_finally_inv. unfold connection_live. simpl.
    by destruct (external_ws_connection t).
  - by apply disconnect_inv.
  - (* shutdown *)
    simpl. apply disconnect_inv. split; [|split]; simpl; done.
  - (* handle *)
    unfold handle_fastapi_websocket.
    destruct (receive_loop _ _ _ _ _) as [w1 []]; (split; [|split]; simpl; done).
  - split; [|split]; simpl; done.
Qed.

Lemma reachable_inv t : reachable t -> transport_inv t.
Proof.
  induction 1 as [|t t' _ IH Hstep]; [apply init_inv|by eapply step_inv].
Qed.

End Invariants.

(** ** The wire codec inverts itself *)

Module CodecFacts.
Import Codec.

Lemma skip_ws_head c s : is_ws c = false -> skip_ws (c :: s) = c :: s.
Proof. intros H. simpl. by rewrite H. Qed.

(** *** Strings *)

Lemma parse_escape_char c tail body r :
  parse_string_body tail = Some (body, r) ->
  parse_string_body (escape_char c ++ tail) = Some (c :: body, r).
Proof.
  intros Htail. unfold escape_char.
  destruct (Ascii.eqb c "034") eqn:E1.
  { apply Ascii.eqb_eq in E1 as ->. simpl. by rewrite Htail. }
  destruct (Ascii.eqb c "092") eqn:E2.
  { apply Ascii.eqb_eq in E2 as ->. simpl. by rewrite Htail. }
  destruct (Ascii.eqb c "010") eqn:E3.
  { apply Ascii.eqb_eq in E3 as ->. simpl. by rewrite Htail. }
  destruct (Ascii.eqb c "013") eqn:E4.
  { apply Ascii.eqb_eq in E4 as ->. simpl. by rewrite Htail. }
  destruct (Ascii.eqb c "009") eqn:E5.
  { apply Ascii.eqb_eq in E5 as ->. simpl. by rewrite Htail. }
  simpl. by rewrite E1, E2, Htail.
Qed.

Lemma parse_string_body_escape cs rest :
  parse_string_body (flat_map escape_char cs ++ "034"%char :: rest)
  = Some (cs, rest).
Proof.
  induction cs as [|c cs IH]; [done|].
  simpl. rewrite <- app_assoc. by apply parse_escape_char.
Qed.

(** *** Numbers *)

Lemma digit_value_char d : (d < 10)%N -> digit_value (pretty_N_char d) = Some d.
Proof.
  intros H.
  assert (d = 0 \/ d = 1 \/ d = 2 \/ d = 3 \/ d = 4 \/ d = 5 \/ d = 6 \/ d = 7
          \/ d = 8 \/ d = 9)%N as Hd by lia.
  by repeat (destruct Hd as [->|Hd]; [done|]); subst.
Qed.

Lemma parse_digits_end acc tail : ends_number tail -> parse_digits acc tail = (acc, tail).
Proof.
  destruct tail as [|c tail]; [done|]. simpl. unfold is_digit.
  by destruct (digit_value c).
Qed.

(** The digits that [pretty_N_go x] puts in front of [s] read back as [x]. *)
Lemma pretty_N_go_digits x :
  forall s, exists ds,
    chars (pretty_N_go x s) = ds ++ chars s /\
    Forall (fun c => is_digit c = true) ds /\
    ((0 < x)%N -> ds <> []) /\
    forall acc tail,
      parse_digits acc (ds ++ tail)
      = parse_digits (acc * 10 ^ N.of_nat (length ds) + x)%N tail.
Proof.
  induction (N.lt_wf_0 x) as [x _ IH]. intros s.
  destruct (decide (x = 0)%N) as [->|Hx].
  - exists []. rewrite pretty_N_go_0. repeat split; [constructor|lia|].
    intros acc tail. simpl. f_equal. lia.
  - rewrite pretty_N_go_step by lia.
    destruct (IH (x `div` 10)%N) with (s := String (pretty_N_char (x `mod` 10)) s)
      as (ds & Hds & Hall & _ & Hparse).
    { apply N.div_lt; lia. }
    assert (x `mod` 10 < 10)%N as Hmod by (apply N.mod_lt; lia).
    exists (ds ++ [pretty_N_char (x `mod` 10)]). repeat split.
    + rewrite Hds. simpl. by rewrite <- app_assoc.
    + apply Forall_app. split; [done|]. constructor; [|constructor].
      unfold is_digit. by rewrite digit_value_char.
    + intros _. by destruct ds.
    + intros acc tail. rewrite <- app_assoc. simpl. rewrite Hparse. simpl.
      rewrite digit_value_char by done. f_equal.
      rewrite length_app. simpl.
      replace (N.of_nat (length ds + 1)) with (N.succ (N.of_nat (length ds))) by lia.
      rewrite N.pow_succ_r'.
      pose proof (N.div_mod x 10). lia.
Qed.

Lemma parse_digits_pretty_pos p tail :
  ends_number tail ->
  exists c ds,
    chars (pretty (N.pos p)) = c :: ds /\ is_digit c = true /\
    parse_digits 0 (c :: ds ++ tail) = (N.pos p, tail).
Proof.
  intros Htail. unfold pretty, pretty_N. simpl.
  destruct (pretty_N_go_digits (N.pos p) EmptyString) as (ds & Hds & Hall & Hne & Hparse).
  simpl in Hds. rewrite app_nil_r in Hds.
  destruct ds as [|c ds]; [by destruct Hne|].
  exists c, ds. split; [done|]. split; [by inversion Hall|].
  etrans; [exact (Hparse 0%N tail)|].
  rewrite N.mul_0_l, N.add_0_l. by apply parse_digits_end.
Qed.

Lemma is_digit_not_minus c : is_digit c = true -> Ascii.eqb c "-" = false.
Proof.
  intros H. destruct (Ascii.eqb c "-") eqn:E; [|done].
  apply Ascii.eqb_eq in E as ->. done.
Qed.

Lemma parse_print_number n tail :
  ends_number tail -> parse_number (print_number n ++ tail) = Some (n, tail).
Proof.
  intros Htail. unfold print_number. destruct n as [|p|p].
  - simpl. by rewrite parse_digits_end.
  - destruct (parse_digits_pretty_pos p tail Htail) as (c & ds & Hc & Hdig & Hparse).
    change (pretty (Z.pos p)) with (pretty (N.pos p)). rewrite Hc.
    change ((c :: ds) ++ tail) with (c :: ds ++ tail).
    unfold parse_number. rewrite (is_digit_not_minus c Hdig), Hdig, Hparse. done.
  - destruct (parse_digits_pretty_pos p tail Htail) as (c & ds & Hc & Hdig & Hparse).
    change (chars (pretty (Z.neg p)))
      with ("-"%char :: chars (pretty (N.pos p))).
    rewrite Hc.
    change (parse_number (("-"%char :: c :: ds) ++ tail))
      with (if is_digit c
            then let '(n, r) := parse_digits 0 (c :: ds ++ tail) in
                 Some (- Z.of_N n, r)
            else None).
    by rewrite Hdig, Hparse.
Qed.

(** *** Values *)

Local Open Scope nat_scope.

Lemma starts_number_plain c :
  starts_number c ->
  is_ws c = false /\ Ascii.eqb c "n" = false /\ Ascii.eqb c "t" = false /\
  Ascii.eqb c "f" = false /\ Ascii.eqb c "034" = false /\
  Ascii.eqb c "[" = false /\ Ascii.eqb c "{" = false /\
  Ascii.eqb c "]" = false /\ Ascii.eqb c "}" = false.
Proof.
  intros [Hd| ->]; [|done].
  assert (forall x, is_digit x = false -> Ascii.eqb c x = false) as Hne.
  { intros x Hx. destruct (Ascii.eqb c x) eqn:E; [|done].
    apply Ascii.eqb_eq in E as ->. congruence. }
  unfold is_ws. by rewrite !Hne.
Qed.

Lemma print_number_head n : exists c s, print_number n = c :: s /\ starts_number c.
Proof.
  unfold print_number. destruct n as [|p|p].
  - exists "0"%char, []. split; [done|by left].
  - destruct (parse_digits_pretty_pos p [] I) as (c & ds & Hc & Hdig & _).
    exists c, ds. split; [done|by left].
  - exists "-"%char, (chars (pretty (N.pos p))). split; [done|by right].
Qed.

(** A printed value starts with a character that is no white space and
    closes neither an array nor an object. *)
Lemma print_head v :
  exists c s, print v = c :: s /\ is_ws c = false /\
              Ascii.eqb c "]" = false /\ Ascii.eqb c "}" = false.
Proof.
  destruct v as [|[]|n|s|l|fields]; try by (eexists _, _; split; [done|]).
  destruct (print_number_head n) as (c & s & Hp & Hc).
  exists c, s. split; [done|]. by destruct (starts_number_plain c Hc) as (?&?&?&?&?&?&?&?&?).
Qed.

Lemma join_head c s parts : exists s', join ((c :: s) :: parts) = c :: s'.
Proof. destruct parts; simpl; eauto. Qed.

Lemma join_length_elem part parts :
  part ∈ parts -> length part <= length (join parts).
Proof.
  induction parts as [|p parts IH]; intros Hin; [by apply elem_of_nil in Hin|].
  apply elem_of_cons in Hin as [->|Hin].
  - destruct parts; simpl; [done|]. rewrite length_app. lia.
  - specialize (IH Hin). destruct parts as [|p' parts]; [by apply elem_of_nil in Hin|].
    change (join (p :: p' :: parts)) with (p ++ ","%char :: join (p' :: parts)).
    rewrite length_app. simpl in *. lia.
Qed.

Lemma join_length_count parts :
  Forall (fun part => 1 <= length part) parts -> length parts <= length (join parts).
Proof.
  induction 1 as [|p parts Hp _ IH]; [done|].
  destruct parts as [|p' parts]; [simpl; lia|].
  change (join (p :: p' :: parts)) with (p ++ ","%char :: join (p' :: parts)).
  rewrite length_app. simpl in *. lia.
Qed.

Lemma elem_of_map {A B} (f : A -> B) (l : list A) (y : B) :
  y ∈ map f l <-> exists x, y = f x /\ x ∈ l.
Proof.
  rewrite list_elem_of_In, in_map_iff. split.
  - intros (x & <- & Hx). exists x. by rewrite list_elem_of_In.
  - intros (x & -> & Hx). exists x. by rewrite <- list_elem_of_In.
Qed.

Lemma print_length v : 1 <= length (print v).
Proof. destruct (print_head v) as (c & s & -> & _). simpl. lia. Qed.

Local Arguments join : simpl never.

Section Items.

Variable pv : list ascii -> option (JSON * list ascii).

Lemma parse_items_join (l : list JSON) : forall n tail,
  l <> [] -> length l <= n ->
  (forall v t, v ∈ l -> ends_number t -> pv (print v ++ t) = Some (v, t)) ->
  parse_items pv n (join (map print l) ++ "]"%char :: tail) = Some (l, tail).
Proof.
  induction l as [|v l IH]; intros n tail Hne Hlen Hpv; [done|].
  destruct n as [|n]; [simpl in Hlen; lia|].
  destruct l as [|v' l].
  - change (join (map print [v])) with (print v).
    simpl. rewrite Hpv; [done|by apply elem_of_cons; left|done].
  - change (join (map print (v :: v' :: l)))
      with (print v ++ ","%char :: join (map print (v' :: l))).
    rewrite <- app_assoc. simpl.
    rewrite Hpv; [|by apply elem_of_cons; left|done]. simpl.
    assert (parse_items pv n (join (map print (v' :: l)) ++ "]"%char :: tail)
            = Some (v' :: l, tail)) as IH'.
    { apply IH; [done|simpl in *; lia|].
      intros v0 t Hv0 Ht. apply Hpv; [by apply elem_of_cons; right|done]. }
    simpl in IH'. by rewrite IH'.
Qed.

Lemma parse_members_join (fields : list (string * JSON)) : forall n tail,
  fields <> [] -> length fields <= n ->
  (forall kv t, kv ∈ fields -> ends_number t -> pv (print kv.2 ++ t) = Some (kv.2, t)) ->
  parse_members pv n (join (map print_member fields) ++ "}"%char :: tail)
  = Some (fields, tail).
Proof.
  induction fields as [|[k v] fields IH]; intros n tail Hne Hlen Hpv; [done|].
  destruct n as [|n]; [simpl in Hlen; lia|].
  destruct fields as [|kv' fields].
  - change (join (map print_member [(k, v)])) with (print_member (k, v)).
    simpl. unfold print_member, print_string. simpl.
    rewrite <- ?app_assoc. simpl. rewrite <- ?app_assoc.
    rewrite parse_string_body_escape. simpl.
    rewrite (Hpv (k, v)); [|by apply elem_of_cons; left|done]. simpl.
    unfold chars. by rewrite string_of_list_ascii_of_string.
  - change (join (map print_member ((k, v) :: kv' :: fields)))
      with (print_member (k, v) ++ ","%char :: join (map print_member (kv' :: fields))).
    unfold print_member at 1. unfold print_string. simpl.
    rewrite <- ?app_assoc. simpl. rewrite <- ?app_assoc.
    rewrite parse_string_body_escape. simpl. rewrite <- ?app_assoc. simpl.
    rewrite (Hpv (k, v)); [|by apply elem_of_cons; left|done]. simpl.
    assert (parse_members pv n
              (join (map print_member (kv' :: fields)) ++ "}"%char :: tail)
            = Some (kv' :: fields, tail)) as IH'.
    { apply IH; [done|simpl in *; lia|].
      intros kv t Hkv Ht. apply Hpv; [by apply elem_of_cons; right|done]. }
    simpl in IH'. rewrite IH'.
    unfold chars. by rewrite string_of_list_ascii_of_string.
Qed.

End Items.

Lemma parse_value_array fuel rest c s :
  skip_ws rest = c :: s -> Ascii.eqb c "]" = false ->
  parse_value (S fuel) ("["%char :: rest)
  = (fun '(vs, r) => (JArr vs, r)) <$> parse_items (parse_value fuel) fuel rest.
Proof. intros Hs Hc. simpl. by rewrite Hs, Hc. Qed.

Lemma parse_value_object fuel rest c s :
  skip_ws rest = c :: s -> Ascii.eqb c "}" = false ->
  parse_value (S fuel) ("{"%char :: rest)
  = (fun '(ms, r) => (JObj ms, r)) <$> parse_members (parse_value fuel) fuel rest.
Proof. intros Hs Hc. simpl. by rewrite Hs, Hc. Qed.

Lemma parse_value_number fuel c rest :
  starts_number c ->
  parse_value (S fuel) (c :: rest)
  = (fun '(n, r) => (JInt n, r)) <$> parse_number (c :: rest).
Proof.
  intros Hc. destruct (starts_number_plain c Hc) as (Hw&H1&H2&H3&H4&H5&H6&_).
  unfold parse_value. rewrite skip_ws_head by done.
  by rewrite H1, H2, H3, H4, H5, H6.
Qed.

(** Parsing what [print] wrote gives the value back and stops behind it. *)
Lemma parse_print v : forall fuel tail,
  length (print v) <= fuel -> ends_number tail ->
  parse_value fuel (print v ++ tail) = Some (v, tail).
Proof.
  induction v as [|b|n|s|l IH|fields IH] using JSON_nested_ind;
    intros fuel tail Hfuel Htail;
    (destruct fuel as [|fuel];
     [match type of Hfuel with
      | length (print ?v) <= _ => pose proof (print_length v)
      end; lia|]).
  - done.
  - by destruct b.
  - destruct (print_number_head n) as (c & s & Hp & Hc).
    pose proof (parse_print_number n tail Htail) as Hn.
    change (print (JInt n)) with (print_number n).
    rewrite Hp in Hn |- *.
    change ((c :: s) ++ tail) with (c :: s ++ tail) in Hn |- *.
    rewrite parse_value_number by done. by rewrite Hn.
  - simpl. rewrite <- app_assoc. simpl.
    rewrite parse_string_body_escape. simpl.
    unfold chars. by rewrite string_of_list_ascii_of_string.
  - destruct l as [|v l]; [done|].
    assert (length (join (map print (v :: l))) <= fuel) as Hj.
    { simpl in Hfuel. rewrite length_app in Hfuel. simpl in *. lia. }
    destruct (print_head v) as (c & s & Hv & Hw & Hc & _).
    destruct (join_head c s (map print l)) as (s' & Hs').
    change (print (JArr (v :: l)) ++ tail)
      with ("["%char :: (join (map print (v :: l)) ++ ["]"%char]) ++ tail).
    rewrite <- app_assoc.
    rewrite (parse_value_array fuel _ c (s' ++ "]"%char :: tail)); [|
      simpl map; rewrite Hv, Hs'; simpl; by rewrite Hw | done].
    simpl app at 2.
    rewrite parse_items_join; [done|done| |].
    + rewrite <- (length_map print). etrans; [|exact Hj]. apply join_length_count.
      apply Forall_forall. intros part (v0 & -> & _)%elem_of_map.
      apply print_length.
    + intros v0 t Hin Ht. rewrite Forall_forall in IH. apply IH; [done| |done].
      etrans; [|exact Hj]. apply join_length_elem. apply elem_of_map. eauto.
  - destruct fields as [|[k v] fields]; [done|].
    change (print (JObj ((k, v) :: fields)) ++ tail)
      with ("{"%char :: (join (map print_member ((k, v) :: fields)) ++ ["}"%char]) ++ tail).
    assert (length (join (map print_member ((k, v) :: fields))) <= fuel) as Hj.
    { change (print (JObj ((k, v) :: fields)))
        with ("{"%char :: join (map print_member ((k, v) :: fields)) ++ ["}"%char])
        in Hfuel.
      simpl in Hfuel. rewrite length_app in Hfuel. simpl in *. lia. }
    assert (exists s', join (map print_member ((k, v) :: fields)) = "034"%char :: s')
      as (s' & Hs').
    { simpl map. unfold print_member at 1, print_string. simpl. apply join_head. }
    rewrite <- app_assoc.
    rewrite (parse_value_object fuel _ "034"%char (s' ++ "}"%char :: tail));
      [|by rewrite Hs'|done].
    simpl app at 2.
    rewrite parse_members_join; [done|done| |].
    + rewrite <- (length_map print_member). etrans; [|exact Hj].
      apply join_length_count.
      apply Forall_forall. intros part (kv & -> & _)%elem_of_map.
      unfold print_member. rewrite length_app. simpl. lia.
    + intros kv t Hin Ht. rewrite Forall_forall in IH. apply IH; [done| |done].
      etrans; [|exact Hj].
      etrans; [|apply join_length_elem; apply elem_of_map; eauto].
      unfold print_member. rewrite length_app. simpl. lia.
Qed.

Lemma loads_dumps v : loads (dumps v) = Some v.
Proof.
  unfold loads, dumps, chars.
  rewrite list_ascii_of_string_of_list_ascii.
  rewrite <- (app_nil_r (print v)) at 2.
  rewrite parse_print; [done| |done].
  rewrite <- (list_ascii_of_string_of_list_ascii (print v)) at 1.
  assert (forall s, length (list_ascii_of_string s) = String.length s) as ->.
  { induction s as [|c s IH]; simpl; congruence. }
  lia.
Qed.

End CodecFacts.

Module MessageFacts.
Import Codec CodecFacts.

Lemma from_to_json m : from_json (to_json m) = Some m.
Proof.
  destruct m as [[i method params]|[method params]|[i result]|[[i|] [c msg d]]];
    simpl; try destruct i; try destruct params; reflexivity.
Qed.

Lemma decode_encode_inv m : decode (encode m) = inr m.
Proof. unfold decode, encode. by rewrite loads_dumps, from_to_json. Qed.

End MessageFacts.


Lemma connected_transport_reachable :
  reachable Codec.decode Codec.encode connected_transport.
Proof.
  eapply reachable_step; [apply reachable_init|]. apply step_connect.
Defined.

(** ** Protocol dispatcher *)

(** C7 (as stated) fails: the capabilities of the [initialize] result are
    not exactly [tools], [resources] and [prompts]. *)
Lemma initialize_capabilities_counterexample :
  ~ (forall srv r,
       req_method r = "initialize" ->
       exists result caps,
         _process_mcp_message srv (RootRequest r)
         = Some (ReplyResponse {| resp_id := req_id r; resp_result := result |}) /\
         dict_get "capabilities" result = Some (JObj caps) /\
         forall k, k ∈ dict_keys caps <-> k ∈ ["tools"; "resources"; "prompts"]).
Proof.
  intros H.
  destruct (H bare_server (request (IdStr "1") "initialize") eq_refl)
    as (result & caps & Hres & Hcaps & Hkeys).
  simpl in Hres. injection Hres as <-.
  simpl in Hcaps. injection Hcaps as <-.
  assert ("logging" ∈ ["tools"; "resources"; "prompts"]) as Hin.
  { apply Hkeys. unfold dict_keys. simpl. list_member. }
  list_no_member Hin.
Qed.

(** C7 (amended).  For every request with method [initialize] the
    dispatcher returns a response with the id of the request whose result
    has the protocol version 2024-11-05, the four capabilities [tools],
    [resources], [prompts] and [logging], each empty, and the server
    info of this transport. *)
Theorem initialize_response (srv : Server) (r : JSONRPCRequest) :
  req_method r = "initialize" ->
  _process_mcp_message srv (RootRequest r)
  = Some (ReplyResponse
            {| resp_id := req_id r;
               resp_result :=
                 [ ("protocolVersion", JStr "2024-11-05");
                   ("capabilities",
                      JObj [ ("tools", JObj []); ("resources", JObj []);
                             ("prompts", JObj []); ("logging", JObj []) ]);
                   ("serverInfo",
                      JObj [ ("name", JStr "FastAPI-MCP WebSocket Server");
                             ("version", JStr "0.4.0") ]) ] |}).
Proof. intros Hm. unfold _process_mcp_message. by rewrite Hm. Qed.

(** The two dispatcher scenarios of the specification. *)
Example initialize_scenario :
  _process_mcp_message bare_server (RootRequest (request (IdStr "1") "initialize"))
  = Some (ReplyResponse {| resp_id := IdStr "1"; resp_result := initialize_result |}) /\
  dict_get "protocolVersion" initialize_result = Some (JStr "2024-11-05").
Proof. by split. Qed.

Example bogus_method_scenario :
  _process_mcp_message bare_server (RootRequest (request (IdStr "2") "bogus/method"))
  = Some (ReplyError
            {| err_id := Some (IdStr "2");
               error := {| code := -32601; message := "Method not found";
                           data := JObj [("method", JStr "bogus/method")] |} |}).
Proof. reflexivity. Qed.

Lemma initialize_response_witness :
  _process_mcp_message bare_server (RootRequest (request (IdStr "1") "initialize"))
  = Some (ReplyResponse
            {| resp_id := IdStr "1";
               resp_result :=
                 [ ("protocolVersion", JStr "2024-11-05");
                   ("capabilities",
                      JObj [ ("tools", JObj []); ("resources", JObj []);
                             ("prompts", JObj []); ("logging", JObj []) ]);
                   ("serverInfo",
                      JObj [ ("name", JStr "FastAPI-MCP WebSocket Server");
                             ("version", JStr "0.4.0") ]) ] |}).
Proof.
  apply (initialize_response bare_server (request (IdStr "1") "initialize")).
  reflexivity.
Defined.

(** ** External connector *)

Section Connector.

Variable model_validate_json : string -> string + JSONRPCMessage.
Variable model_dump_json : JSONRPCMessage -> string.

Local Abbreviation reachable := (reachable model_validate_json model_dump_json).
Local Abbreviation on_external_message := (on_external_message model_validate_json).
Local Abbreviation send_to_external_websocket :=
  (send_to_external_websocket model_dump_json).

(** C4 (amended).  While the outbound connection is live, a call of
    [connect_to_external_websocket] returns without an error and leaves
    the transport, and with it the connection and its listener, as it
    was. *)
Theorem connect_when_live (net : Network) (t : FastApiWebSocketTransport)
    (url : string) :
  connection_live t = true ->
  connect_to_external_websocket net t url = (t, Returns).
Proof. intros Hlive. unfold connect_to_external_websocket. by rewrite Hlive. Qed.

(** C5.  The outcome of [connect_to_external_websocket] does not depend
    on [connection_timeout]: the value is stored and never handed to
    [websockets.connect]. *)
Theorem connect_ignores_connection_timeout (net : Network)
    (t : FastApiWebSocketTransport) (url : string) (x : Q) :
  connect_to_external_websocket net (set_connection_timeout x t) url
  = (set_connection_timeout x (connect_to_external_websocket net t url).1,
     (connect_to_external_websocket net t url).2).
Proof.
  unfold connect_to_external_websocket, connection_live, connect_kwargs. simpl.
  destruct (external_ws_connection t) as [c|]; simpl.
  - destruct (closed c); simpl; [|done]. by destruct (net url _).
  - by destruct (net url _).
Qed.

(** What a request does on a live connection: it is written out, and when
    its key is not the empty string it is entered in the table under a
    new event. *)
Lemma send_request_live (t : FastApiWebSocketTransport) (r : JSONRPCRequest) c :
  external_ws_connection t = Some c -> closed c = false ->
  send_to_external_websocket t (RootRequest r)
  = let t1 := set_connection (Some (ws_send c (model_dump_json (RootRequest r)))) t in
    if truthy (str (req_id r)) then
      (set_waiting (<[str (req_id r) := length (events t)]> (pending_requests t))
         (responses t) (events t ++ [false]) t1,
       SendWaiting (str (req_id r)) (length (events t)))
    else (t1, SendReturns None).
Proof.
  intros Hc Hcl. unfold send_to_external_websocket. rewrite Hc, Hcl. simpl.
  by rewrite andb_true_r.
Qed.

Lemma connection_live_inv (t : FastApiWebSocketTransport) :
  connection_live t = true ->
  exists c, external_ws_connection t = Some c /\ closed c = false.
Proof.
  unfold connection_live. destruct (external_ws_connection t) as [c|]; [|done].
  intros H. exists c. split; [done|]. by destruct (closed c).
Qed.

(** C6 (amended).  Registering a request whose key is already in the table
    does not fail: the call waits on a new event, the entry of the key now
    points at that event, the other entries stay, and every event created
    before, with the one that was registered under the key, keeps its
    state. *)
Theorem register_replaces_entry (t : FastApiWebSocketTransport)
    (r : JSONRPCRequest) (old : nat) :
  reachable t ->
  connection_live t = true ->
  truthy (str (req_id r)) = true ->
  pending_requests t !! str (req_id r) = Some old ->
  let key := str (req_id r) in
  let new := length (events t) in
  let t' := (send_to_external_websocket t (RootRequest r)).1 in
  (send_to_external_websocket t (RootRequest r)).2 = SendWaiting key new /\
  pending_requests t' !! key = Some new /\
  new <> old /\
  (forall k, k <> key -> pending_requests t' !! k = pending_requests t !! k) /\
  (forall ev, (ev < length (events t))%nat -> events t' !! ev = events t !! ev) /\
  events t' !! new = Some false.
Proof.
  intros Hreach Hlive Hkey Hold key new t'.
  pose proof (reachable_inv _ _ t Hreach) as (Hwf & _).
  destruct (connection_live_inv t Hlive) as (c & Hc & Hcl).
  subst t'. rewrite (send_request_live t r c Hc Hcl). simpl. rewrite Hkey. simpl.
  subst key new. repeat split.
  - by rewrite lookup_insert_eq.
  - apply Hwf in Hold. lia.
  - intros k Hk. by rewrite lookup_insert_ne.
  - intros ev Hev. by rewrite lookup_app_l.
  - rewrite lookup_app_r by done. by rewrite Nat.sub_diag.
Qed.

(** A call whose event is not set when it runs again ends with
    [asyncio.TimeoutError], and the table has no entry for its key. *)
Lemma finish_send_timeout (t : FastApiWebSocketTransport) request_id ev :
  is_set t ev = false ->
  (finish_send t request_id ev).2 = SendRaises TimeoutError /\
  pending_requests (finish_send t request_id ev).1 !! request_id = None.
Proof.
  intros Hset. unfold finish_send. rewrite Hset. simpl.
  split; [done|]. apply lookup_delete_eq.
Qed.

(** A request with a key other than the empty string, sent on a live
    connection and not answered: the call waits, and ends with
    [asyncio.TimeoutError] and without an entry in the table. *)
Lemma send_request_times_out (t : FastApiWebSocketTransport) (r : JSONRPCRequest) :
  connection_live t = true ->
  truthy (str (req_id r)) = true ->
  exists ev,
    let t1 := (send_to_external_websocket t (RootRequest r)).1 in
    (send_to_external_websocket t (RootRequest r)).2
    = SendWaiting (str (req_id r)) ev /\
    is_set t1 ev = false /\
    (finish_send t1 (str (req_id r)) ev).2 = SendRaises TimeoutError /\
    pending_requests (finish_send t1 (str (req_id r)) ev).1 !! str (req_id r) = None.
Proof.
  intros Hlive Hkey.
  destruct (connection_live_inv t Hlive) as (c & Hc & Hcl).
  exists (length (events t)). simpl.
  rewrite (send_request_live t r c Hc Hcl). simpl. rewrite Hkey. simpl.
  assert (is_set
            (set_waiting (<[str (req_id r) := length (events t)]> (pending_requests t))
               (responses t) (events t ++ [false])
               (set_connection (Some (ws_send c (model_dump_json (RootRequest r)))) t))
            (length (events t)) = false) as Hset.
  { unfold is_set. simpl. rewrite lookup_app_r by done. by rewrite Nat.sub_diag. }
  split; [done|]. split; [done|]. by apply finish_send_timeout.
Qed.

End Connector.

(** ** Request correlation, disconnect and shutdown *)

Section Correlator.

Variable model_validate_json : string -> string + JSONRPCMessage.
Variable model_dump_json : JSONRPCMessage -> string.

Local Abbreviation reachable := (reachable model_validate_json model_dump_json).
Local Abbreviation on_external_message := (on_external_message model_validate_json).
Local Abbreviation send_to_external_websocket :=
  (send_to_external_websocket model_dump_json).
Local Abbreviation send_requests := (send_requests model_dump_json).

(** The key under which a request is registered. *)
Local Abbreviation key_of := (fun r : JSONRPCRequest => str (req_id r)).

Lemma send_requests_spec (reqs : list JSONRPCRequest) :
  forall t,
    connection_live t = true ->
    Forall (fun r => truthy (key_of r) = true) reqs ->
    NoDup (key_of <$> reqs) ->
    let t' := (send_requests t reqs).1 in
    let n := length (events t) in
    connection_live t' = true /\
    events t' = events t ++ replicate (length reqs) false /\
    responses t' = responses t /\
    (send_requests t reqs).2
    = imap (fun i r => SendWaiting (key_of r) (n + i)) reqs /\
    (forall i r, reqs !! i = Some r ->
                 pending_requests t' !! key_of r = Some (n + i)%nat) /\
    (forall k, k ∉ key_of <$> reqs ->
               pending_requests t' !! k = pending_requests t !! k).
Proof.
  induction reqs as [|r reqs IH]; intros t Hlive Hkeys Hdup.
  - simpl. rewrite app_nil_r. by repeat split.
  - apply Forall_cons in Hkeys as [Hkey Hkeys].
    rewrite fmap_cons in Hdup. apply NoDup_cons in Hdup as [Hnew Hdup].
    destruct (connection_live_inv t Hlive) as (c & Hc & Hcl).
    simpl. rewrite (send_request_live model_dump_json t r c Hc Hcl). simpl.
    rewrite Hkey.
    set (t1 := set_waiting _ _ _ _).
    assert (connection_live t1 = true) as Hlive1.
    { unfold connection_live. simpl. by rewrite Hcl. }
    specialize (IH t1 Hlive1 Hkeys Hdup).
    destruct (send_requests t1 reqs) as [t2 os] eqn:Hsend.
    simpl in IH. destruct IH as (Hl & Hev & Hresp & Hos & Hpend & Hframe).
    simpl. rewrite length_app in *. simpl in *.
    split; [done|]. split; [by rewrite Hev, <- app_assoc|].
    split; [done|]. split; [|split].
    + rewrite Hos. f_equal; [by rewrite Nat.add_0_r|].
      apply imap_ext. intros i x _. simpl. f_equal. lia.
    + intros [|i] r' Hi; simpl in Hi.
      * injection Hi as <-. rewrite Hframe by done.
        rewrite lookup_insert_eq. by rewrite Nat.add_0_r.
      * rewrite (Hpend i r' Hi). f_equal. lia.
    + intros k Hk. apply not_elem_of_cons in Hk as [Hne Hk].
      rewrite Hframe by done. by rewrite lookup_insert_ne.
Qed.

(** C1 (amended).  Requests are sent on a live connection one after the
    other; their keys [str(id)] are pairwise different and none is the
    empty string.  When a response arrives whose key is that of request
    [i], caller [i] finds its event set and returns that response; every
    other caller still waits on an unset event, with its entry in the table
    and with no response stored for it that was not there before. *)
Theorem response_reaches_its_caller (t : FastApiWebSocketTransport)
    (reqs : list JSONRPCRequest) (frame : string) (resp : JSONRPCResponse)
    (i : nat) (r : JSONRPCRequest) :
  connection_live t = true ->
  Forall (fun r => truthy (key_of r) = true) reqs ->
  NoDup (key_of <$> reqs) ->
  model_validate_json frame = inr (RootResponse resp) ->
  reqs !! i = Some r ->
  str (resp_id resp) = key_of r ->
  let t1 := (send_requests t reqs).1 in
  let callers := (send_requests t reqs).2 in
  let t2 := on_external_message t1 frame in
  exists ev,
    callers !! i = Some (SendWaiting (key_of r) ev) /\
    is_set t1 ev = false /\
    is_set t2 ev = true /\
    (finish_send t2 (key_of r) ev).2 = SendReturns (Some resp) /\
    forall j r', j <> i -> reqs !! j = Some r' ->
      exists ev',
        callers !! j = Some (SendWaiting (key_of r') ev') /\
        ev' <> ev /\
        is_set t2 ev' = false /\
        pending_requests t2 !! key_of r' = Some ev' /\
        responses t2 !! key_of r' = responses t !! key_of r'.
Proof.
  intros Hlive Hkeys Hdup Hframe Hi Hid t1 callers t2.
  destruct (send_requests_spec reqs t Hlive Hkeys Hdup)
    as (_ & Hev & Hresp & Hos & Hpend & _).
  fold t1 in Hev, Hresp, Hpend. fold callers in Hos.
  set (n := length (events t)) in *.
  assert (forall j x, reqs !! j = Some x ->
            callers !! j = Some (SendWaiting (key_of x) (n + j)) /\
            events t1 !! (n + j)%nat = Some false) as Hcaller.
  { intros j x Hj. split.
    - rewrite Hos, list_lookup_imap, Hj. done.
    - rewrite Hev, lookup_app_r by (unfold n; lia).
      apply lookup_replicate_2. apply lookup_lt_Some in Hj. unfold n. lia. }
  assert (t2 = set_waiting (pending_requests t1)
                 (<[key_of r := resp]> (responses t1))
                 (<[(n + i)%nat := true]> (events t1)) t1) as Ht2.
  { unfold t2, on_external_message. rewrite Hframe, Hid.
    by rewrite (Hpend i r Hi). }
  destruct (Hcaller i r Hi) as (Hci & Hei).
  exists (n + i)%nat. split; [done|].
  split; [by unfold is_set; rewrite Hei|].
  assert (is_set t2 (n + i) = true) as Hset.
  { rewrite Ht2. unfold is_set. simpl.
    rewrite list_lookup_insert_eq; [done|]. by eapply lookup_lt_Some. }
  split; [done|]. split.
  { unfold finish_send. rewrite Hset. simpl. rewrite Ht2. simpl.
    by rewrite lookup_insert_eq. }
  intros j r' Hne Hj. destruct (Hcaller j r' Hj) as (Hcj & Hej).
  exists (n + j)%nat. split; [done|]. split; [lia|].
  assert (key_of r' <> key_of r) as Hkne.
  { intros Heq. apply Hne.
    eapply (NoDup_lookup (key_of <$> reqs)); [done| |].
    - by rewrite list_lookup_fmap, Hj.
    - rewrite list_lookup_fmap, Hi. simpl. by rewrite Heq. }
  rewrite Ht2. unfold is_set. simpl. repeat split.
  - rewrite list_lookup_insert_ne by lia. by rewrite Hej.
  - by apply Hpend.
  - rewrite lookup_insert_ne by done. by rewrite Hresp.
Qed.

Lemma elem_of_pending_values (m : gmap string nat) k ev :
  m !! k = Some ev -> ev ∈ (map_to_list m).*2.
Proof.
  intros H. apply list_elem_of_fmap. exists (k, ev). split; [done|].
  by apply elem_of_map_to_list.
Qed.

Lemma disconnect_fields (t : FastApiWebSocketTransport) :
  let t' := disconnect_external_websocket t in
  listener_running t' = false /\ connection_live t' = false /\
  active_connections t' = active_connections t /\
  responses t' = responses t /\
  (listener_running t = true ->
     pending_requests t' = ∅ /\
     events t' = set_all (map_to_list (pending_requests t)).*2 (events t)) /\
  (listener_running t = false ->
     pending_requests t' = pending_requests t /\ events t' = events t).
Proof.
  unfold disconnect_external_websocket.
  destruct (listener_running t) eqn:Hrun.
  - destruct (connection_live (listener_finally t)) eqn:Hl.
    + unfold connection_live. simpl.
      destruct (external_ws_connection t); simpl; by repeat split.
    + by repeat split.
  - destruct (connection_live t) eqn:Hl.
    + unfold connection_live, listener_running in *. simpl.
      destruct (external_ws_connection t); simpl in *; by repeat split.
    + by repeat split.
Qed.

Lemma disconnect_clears_pending (t : FastApiWebSocketTransport) :
  transport_inv t -> pending_requests (disconnect_external_websocket t) = ∅.
Proof.
  intros (_ & _ & Hpend).
  destruct (disconnect_fields t) as (_ & _ & _ & _ & Hrun & Hidle).
  destruct (listener_running t) eqn:Hr; [by apply Hrun|].
  destruct (Hidle eq_refl) as [-> _].
  destruct (decide (pending_requests t = ∅)) as [|Hne]; [done|].
  by specialize (Hpend Hne).
Qed.


Lemma set_active_connections_id (t : FastApiWebSocketTransport) :
  set_active_connections (active_connections t) t = t.
Proof. by destruct t. Qed.

Lemma disconnect_idle (t : FastApiWebSocketTransport) :
  listener_running t = false -> connection_live t = false ->
  disconnect_external_websocket t = t.
Proof.
  intros Hrun Hlive. unfold disconnect_external_websocket. by rewrite Hrun, Hlive.
Qed.


End Correlator.

(** ** Inbound sessions *)

Section Sessions.

Variable model_validate_json : string -> string + JSONRPCMessage.
Variable model_dump_json : JSONRPCMessage -> string.

Local Abbreviation receive_loop := (receive_loop model_validate_json model_dump_json).
Local Abbreviation answer := (answer model_validate_json model_dump_json).
Local Abbreviation send_error := (send_error model_dump_json).
Local Abbreviation handle_fastapi_websocket :=
  (handle_fastapi_websocket model_validate_json model_dump_json).

Lemma send_text_succeeds (w : WebSocket) (frame : string) :
  send_succeeds w = true -> send_text w frame = (ws_written w frame, None).
Proof.
  unfold send_succeeds, send_text.
  by destruct (ws_send_script w) as [|[e|] script].
Qed.

Lemma send_text_raises (w : WebSocket) (frame : string) e script :
  ws_send_script w = Some e :: script -> send_text w frame = (ws_refused w, Some e).
Proof. intros H. unfold send_text. by rewrite H. Qed.

Lemma send_error_raises (w : WebSocket) (e : ErrorData) :
  send_error w e = (w, Some {| is_disconnect := false; exc_str := id_refused |}).
Proof. reflexivity. Qed.

(** C10 (what the code does).  Both [except] arms of the receive loop build
    their error frame with [id=None], which the constructor of
    [JSONRPCError] refuses: no frame is written on the socket, the error
    leaves the loop, and the handler ends the session and takes it out of
    the registry; the texts that follow are not read.  This holds for a
    text that does not validate, and for an exception that reaches the
    loop, here out of sending the reply. *)
Theorem loop_error_arms_end_session (t : FastApiWebSocketTransport)
    (w : WebSocket) (text : string) (rest : list Received)
    (session_id : option string) (uuid : string) :
  let handled :=
    handle_fastapi_websocket t w (RecvText text :: rest) session_id uuid in
  (forall validation_error,
     model_validate_json text = inl validation_error ->
     receive_loop (mcp_server t) (RecvText text :: rest) w = (w, Failed id_refused) /\
     ws_sent (handled.1).2 = ws_sent w /\
     handled.2 = Failed id_refused /\
     active_connections (handled.1).1 !! default uuid session_id = None)
  /\
  (forall msg reply e script,
     model_validate_json text = inr msg ->
     _process_mcp_message (mcp_server t) msg = Some reply ->
     ws_send_script w = Some e :: script ->
     receive_loop (mcp_server t) (RecvText text :: rest) w
     = (ws_refused w, Failed id_refused) /\
     ws_sent (handled.1).2 = ws_sent w /\
     handled.2 = Failed id_refused /\
     active_connections (handled.1).1 !! default uuid session_id = None).
Proof.
  intros handled. split.
  - intros validation_error Hbad.
    assert (receive_loop (mcp_server t) (RecvText text :: rest) w
            = (w, Failed id_refused)) as Hloop.
    { simpl. unfold answer. by rewrite Hbad, send_error_raises. }
    split; [done|]. subst handled. unfold handle_fastapi_websocket.
    rewrite Hloop. simpl. by rewrite lookup_delete_eq.
  - intros msg reply e script Hmsg Hreply Hscript.
    assert (receive_loop (mcp_server t) (RecvText text :: rest) w
            = (ws_refused w, Failed id_refused)) as Hloop.
    { simpl. unfold answer. rewrite Hmsg, Hreply.
      by rewrite (send_text_raises w _ e script Hscript), send_error_raises. }
    split; [done|]. subst handled. unfold handle_fastapi_websocket.
    rewrite Hloop. simpl. by rewrite lookup_delete_eq.
Qed.

End Sessions.

(** * The theorems at concrete inputs

    The codec is [Codec]; the transports are built from [fresh_transport]
    by the operations themselves. *)

Lemma waiting_transport_reachable :
  reachable Codec.decode Codec.encode waiting_transport.
Proof.
  eapply reachable_step; [apply connected_transport_reachable|]. apply step_send.
Defined.

Lemma busy_transport_reachable :
  reachable Codec.decode Codec.encode busy_transport.
Proof.
  eapply reachable_step; [apply waiting_transport_reachable|]. apply step_handle.
Defined.

Lemma two_sessions_transport_reachable :
  reachable Codec.decode Codec.encode two_sessions_transport.
Proof.
  eapply reachable_step; [apply busy_transport_reachable|]. apply step_handle.
Defined.

(** C1 (as stated) fails: the ids [1] and ["1"] are different, both
    requests are outstanding, and the response to request [1] is not
    returned to the caller that sent request [1]: that caller runs into
    the timeout, and the response goes to the caller of request ["1"]. *)
Lemma correlation_counterexample :
  let reqs := [tools_request (IdInt 1); tools_request (IdStr "1")] in
  let resp := tools_response (IdInt 1) in
  let t1 := (send_requests Codec.encode connected_transport reqs).1 in
  let callers := (send_requests Codec.encode connected_transport reqs).2 in
  let t2 := on_external_message Codec.decode t1 (Codec.encode (RootResponse resp)) in
  NoDup (req_id <$> reqs) /\
  callers = [SendWaiting "1" 0; SendWaiting "1" 1] /\
  (finish_send t2 "1" 0).2 = SendRaises TimeoutError /\
  (finish_send t2 "1" 1).2 = SendReturns (Some resp).
Proof.
  split; [|by vm_compute].
  apply NoDup_cons. split; [intros H; list_no_member H|].
  apply NoDup_cons. split; [intros H; list_no_member H|]. apply NoDup_nil_2.
Qed.

Lemma response_reaches_its_caller_witness :
  let reqs := [tools_request (IdInt 1); tools_request (IdStr "a")] in
  let resp := tools_response (IdInt 1) in
  let t1 := (send_requests Codec.encode connected_transport reqs).1 in
  let callers := (send_requests Codec.encode connected_transport reqs).2 in
  let t2 := on_external_message Codec.decode t1 (Codec.encode (RootResponse resp)) in
  exists ev,
    callers !! 0%nat = Some (SendWaiting "1" ev) /\
    is_set t1 ev = false /\
    is_set t2 ev = true /\
    (finish_send t2 "1" ev).2 = SendReturns (Some resp) /\
    forall j r', j <> 0%nat -> reqs !! j = Some r' ->
      exists ev',
        callers !! j = Some (SendWaiting (str (req_id r')) ev') /\
        ev' <> ev /\
        is_set t2 ev' = false /\
        pending_requests t2 !! str (req_id r') = Some ev' /\
        responses t2 !! str (req_id r') = responses connected_transport !! str (req_id r').
Proof.
  apply (response_reaches_its_caller Codec.decode Codec.encode connected_transport
           [tools_request (IdInt 1); tools_request (IdStr "a")]
           (Codec.encode (RootResponse (tools_response (IdInt 1))))
           (tools_response (IdInt 1)) 0 (tools_request (IdInt 1))).
  - reflexivity.
  - repeat constructor.
  - vm_compute. apply NoDup_cons. split; [intros H; list_no_member H|].
    apply NoDup_cons. split; [intros H; list_no_member H|]. apply NoDup_nil_2.
  - vm_compute. reflexivity.
  - reflexivity.
  - reflexivity.
Defined.

(** C2.  A request whose id is the empty string is written to the
    connection and the call returns [None] at once: it does not wait, does
    not time out and leaves no entry. *)
Theorem send_empty_id_returns_at_once :
  let outcome := send_to_external_websocket Codec.encode connected_transport
                   (RootRequest (tools_request (IdStr EmptyString))) in
  outcome.2 = SendReturns None /\
  pending_requests outcome.1 = ∅ /\
  (sent <$> external_ws_connection outcome.1)
  = Some [Codec.encode (RootRequest (tools_request (IdStr EmptyString)))].
Proof. by vm_compute. Qed.

Lemma displaced_transport_reachable :
  reachable Codec.decode Codec.encode displaced_transport.
Proof.
  eapply reachable_step; [apply waiting_transport_reachable|]. apply step_send.
Defined.



(** C4 (as stated) fails: on a live connection a second connect returns
    normally, it raises nothing. *)
Lemma connect_twice_counterexample :
  connection_live connected_transport = true /\
  connect_to_external_websocket open_network connected_transport "ws://peer/mcp"
  = (connected_transport, Returns) /\
  ~ (exists e,
       (connect_to_external_websocket open_network connected_transport
          "ws://peer/mcp").2 = Raises e).
Proof.
  split; [done|]. split; [done|]. intros [e He]. discriminate He.
Qed.

Lemma connect_when_live_witness :
  connect_to_external_websocket open_network connected_transport "ws://other/mcp"
  = (connected_transport, Returns).
Proof.
  apply (connect_when_live open_network connected_transport "ws://other/mcp").
  reflexivity.
Defined.

(** C6 (as stated) fails: a second request under the key ["1"] is
    registered without an error, and the entry of the first one is
    replaced. *)
Lemma duplicate_id_counterexample :
  let again := send_to_external_websocket Codec.encode waiting_transport
                 (RootRequest (tools_request (IdStr "1"))) in
  pending_requests waiting_transport !! "1" = Some 0%nat /\
  again.2 = SendWaiting "1" 1 /\
  pending_requests again.1 !! "1" = Some 1%nat /\
  ~ (exists e, again.2 = SendRaises e).
Proof.
  split; [by vm_compute|]. split; [by vm_compute|]. split; [by vm_compute|].
  intros [e He]. vm_compute in He. discriminate He.
Qed.

Lemma register_replaces_entry_witness :
  let r := tools_request (IdStr "1") in
  let t' := (send_to_external_websocket Codec.encode waiting_transport
               (RootRequest r)).1 in
  (send_to_external_websocket Codec.encode waiting_transport (RootRequest r)).2
  = SendWaiting "1" (length (events waiting_transport)) /\
  pending_requests t' !! "1" = Some (length (events waiting_transport)) /\
  length (events waiting_transport) <> 0%nat /\
  (forall k, k <> "1" -> pending_requests t' !! k = pending_requests waiting_transport !! k) /\
  (forall ev, (ev < length (events waiting_transport))%nat ->
              events t' !! ev = events waiting_transport !! ev) /\
  events t' !! length (events waiting_transport) = Some false.
Proof.
  apply (register_replaces_entry Codec.decode Codec.encode waiting_transport
           (tools_request (IdStr "1")) 0).
  - apply waiting_transport_reachable.
  - reflexivity.
  - reflexivity.
  - vm_compute. reflexivity.
Defined.



Lemma loop_error_arms_end_session_witness :
  (receive_loop Codec.decode Codec.encode (mcp_server busy_transport)
     [RecvText malformed_text;
      RecvText (Codec.encode (RootRequest (request (IdStr "1") "initialize")))]
     quiet_socket
   = (quiet_socket, Failed id_refused) /\
   ws_sent
     (handle_fastapi_websocket Codec.decode Codec.encode busy_transport quiet_socket
        [RecvText malformed_text;
         RecvText (Codec.encode (RootRequest (request (IdStr "1") "initialize")))]
        (Some "session-2") "uuid").1.2
   = ws_sent quiet_socket /\
   (handle_fastapi_websocket Codec.decode Codec.encode busy_transport quiet_socket
      [RecvText malformed_text;
       RecvText (Codec.encode (RootRequest (request (IdStr "1") "initialize")))]
      (Some "session-2") "uuid").2
   = Failed id_refused /\
   active_connections
     (handle_fastapi_websocket Codec.decode Codec.encode busy_transport quiet_socket
        [RecvText malformed_text;
         RecvText (Codec.encode (RootRequest (request (IdStr "1") "initialize")))]
        (Some "session-2") "uuid").1.1
   !! "session-2" = None)
  /\
  (receive_loop Codec.decode Codec.encode (mcp_server busy_transport)
     [RecvText (Codec.encode (RootRequest (request (IdStr "1") "initialize")))]
     failing_socket
   = (ws_refused failing_socket, Failed id_refused) /\
   ws_sent
     (handle_fastapi_websocket Codec.decode Codec.encode busy_transport failing_socket
        [RecvText (Codec.encode (RootRequest (request (IdStr "1") "initialize")))]
        (Some "session-2") "uuid").1.2
   = ws_sent failing_socket /\
   (handle_fastapi_websocket Codec.decode Codec.encode busy_transport failing_socket
      [RecvText (Codec.encode (RootRequest (request (IdStr "1") "initialize")))]
      (Some "session-2") "uuid").2
   = Failed id_refused /\
   active_connections
     (handle_fastapi_websocket Codec.decode Codec.encode busy_transport failing_socket
        [RecvText (Codec.encode (RootRequest (request (IdStr "1") "initialize")))]
        (Some "session-2") "uuid").1.1
   !! "session-2" = None).
Proof.
  split.
  - apply (proj1 (loop_error_arms_end_session Codec.decode Codec.encode busy_transport
                    quiet_socket malformed_text
                    [RecvText (Codec.encode
                                 (RootRequest (request (IdStr "1") "initialize")))]
                    (Some "session-2") "uuid")
             "Invalid JSON-RPC message").
    vm_compute. reflexivity.
  - apply (proj2 (loop_error_arms_end_session Codec.decode Codec.encode busy_transport
                    failing_socket
                    (Codec.encode (RootRequest (request (IdStr "1") "initialize")))
                    [] (Some "session-2") "uuid")
             (RootRequest (request (IdStr "1") "initialize"))
             (ReplyResponse {| resp_id := IdStr "1"; resp_result := initialize_result |})
             {| is_disconnect := false; exc_str := "send failed" |} []).
    + vm_compute. reflexivity.
    + reflexivity.
    + reflexivity.
Defined.

(** * Further properties of the transport *)

(** ** Protocol dispatcher *)

(** X1.  [_process_mcp_message] replies to requests and to nothing else,
    and every reply, response or error, carries the id of its request. *)
Theorem reply_carries_request_id (srv : Server) (msg : JSONRPCMessage) :
  match _process_mcp_message srv msg with
  | Some (ReplyResponse x) => exists r, msg = RootRequest r /\ resp_id x = req_id r
  | Some (ReplyError e) => exists r, msg = RootRequest r /\ err_id e = Some (req_id r)
  | None => is_request msg = false
  end.
Proof.
  destruct msg as [r|n|x|e]; simpl; try done.
  destruct (String.eqb (req_method r) "initialize"); [by exists r|].
  destruct (String.eqb (req_method r) "tools/list"); [|by exists r].
  destruct (list_tools srv) as [[what| |tools]|]; by exists r.
Qed.

(** X2.  A request whose method is neither [initialize] nor [tools/list]
    is answered with the error -32601, "Method not found", under the id of
    the request and with the method name in [data]. *)
Theorem method_not_found (srv : Server) (r : JSONRPCRequest) :
  req_method r <> "initialize" ->
  req_method r <> "tools/list" ->
  _process_mcp_message srv (RootRequest r)
  = Some (ReplyError
            {| err_id := Some (req_id r);
               error := {| code := -32601;
                           message := "Method not found";
                           data := JObj [("method", JStr (req_method r))] |} |}).
Proof.
  intros H1 H2. simpl.
  apply String.eqb_neq in H1, H2. by rewrite H1, H2.
Qed.

Lemma method_not_found_witness :
  _process_mcp_message bare_server (RootRequest (request (IdInt 2) "bogus/method"))
  = Some (ReplyError
            {| err_id := Some (IdInt 2);
               error := {| code := -32601;
                           message := "Method not found";
                           data := JObj [("method", JStr "bogus/method")] |} |}).
Proof.
  apply (method_not_found bare_server (request (IdInt 2) "bogus/method"));
    discriminate.
Defined.

(** X3.  [tools/list]: when the server has no [list_tools], or it gives a
    falsy result, the reply is a response with an empty list of tools;
    when it gives tools the reply lists them as dumped; when it raises the
    reply is the error -32603 under the id of the request, with the text of
    the exception in [data]. *)
Theorem tools_list_reply (srv : Server) (r : JSONRPCRequest) :
  req_method r = "tools/list" ->
  ((list_tools srv = None \/ list_tools srv = Some ListToolsFalsy) ->
   _process_mcp_message srv (RootRequest r)
   = Some (ReplyResponse {| resp_id := req_id r;
                            resp_result := [("tools", JArr [])] |})) /\
  (forall tools,
     list_tools srv = Some (ListToolsResult tools) ->
     _process_mcp_message srv (RootRequest r)
     = Some (ReplyResponse {| resp_id := req_id r;
                              resp_result := [("tools", JArr tools)] |})) /\
  (forall what,
     list_tools srv = Some (ListToolsRaises what) ->
     _process_mcp_message srv (RootRequest r)
     = Some (ReplyError
               {| err_id := Some (req_id r);
                  error := {| code := -32603;
                              message := "Internal error";
                              data := JObj [("error", JStr what)] |} |})).
Proof.
  intros Hm. unfold _process_mcp_message. rewrite Hm. simpl.
  split; [|split].
  - by intros [-> | ->].
  - by intros tools ->.
  - by intros what ->.
Qed.

Lemma tools_list_reply_witness :
  _process_mcp_message bare_server (RootRequest (tools_request (IdStr "2")))
  = Some (ReplyResponse {| resp_id := IdStr "2";
                           resp_result := [("tools", JArr [])] |}) /\
  _process_mcp_message broken_server (RootRequest (tools_request (IdStr "2")))
  = Some (ReplyError
            {| err_id := Some (IdStr "2");
               error := {| code := -32603;
                           message := "Internal error";
                           data := JObj [("error", JStr "registry unavailable")] |} |}).
Proof.
  split.
  - apply (proj1 (tools_list_reply bare_server (tools_request (IdStr "2")) eq_refl)).
    by left.
  - apply (proj2 (proj2 (tools_list_reply broken_server (tools_request (IdStr "2"))
                           eq_refl))).
    reflexivity.
Defined.

(** ** Inbound sessions *)

Section MoreSessions.

Variable model_validate_json : string -> string + JSONRPCMessage.
Variable model_dump_json : JSONRPCMessage -> string.

Local Abbreviation receive_loop := (receive_loop model_validate_json model_dump_json).
Local Abbreviation answer := (answer model_validate_json model_dump_json).
Local Abbreviation reply_frame := (reply_frame model_validate_json model_dump_json).
Local Abbreviation handle_fastapi_websocket :=
  (handle_fastapi_websocket model_validate_json model_dump_json).

(** X4.  The texts of a session are handled in the order of arrival: the
    loop over two batches of texts is the loop over the first, followed,
    when that one is left awaiting a text, by the loop over the second on
    the socket as the first left it; once the first has ended the session
    nothing of the second is handled. *)
Theorem receive_loop_app (srv : Server) (first second : list Received)
    (w : WebSocket) :
  receive_loop srv (first ++ second) w
  = match receive_loop srv first w with
    | (w1, AwaitingText) => receive_loop srv second w1
    | ended => ended
    end.
Proof.
  revert w. induction first as [|[text|e] first IH]; intros w; simpl.
  - done.
  - destruct (answer srv w text) as [w1 [e|]]; [|apply IH].
    unfold outer_except. by destruct (is_disconnect e).
  - unfold outer_except. by destruct (is_disconnect e).
Qed.

Lemma answer_succeeding (srv : Server) (w : WebSocket) (text : string)
    (message : JSONRPCMessage) :
  ws_send_script w = [] ->
  model_validate_json text = inr message ->
  answer srv w text
  = ({| ws_send_script := [];
        ws_sent := ws_sent w ++ option_list (reply_frame srv text);
        ws_closed := ws_closed w;
        ws_close_raises := ws_close_raises w |}, None).
Proof.
  intros Hscript Hvalid. unfold answer, reply_frame, send_text, ws_written.
  rewrite Hscript, Hvalid.
  destruct (_process_mcp_message srv message) as [reply|]; simpl; [done|].
  rewrite app_nil_r. destruct w. simpl in *. by subst.
Qed.

Lemma receive_loop_valid_prefix (srv : Server) (texts : list string)
    (more : list Received) (w : WebSocket) :
  ws_send_script w = [] ->
  Forall (fun text => exists message, model_validate_json text = inr message) texts ->
  receive_loop srv ((RecvText <$> texts) ++ more) w
  = receive_loop srv more
      {| ws_send_script := [];
         ws_sent := ws_sent w ++ omap (reply_frame srv) texts;
         ws_closed := ws_closed w;
         ws_close_raises := ws_close_raises w |}.
Proof.
  revert w. induction texts as [|text texts IH]; intros w Hscript Hvalid.
  - simpl. rewrite app_nil_r. destruct w. simpl in *. by subst.
  - apply Forall_cons in Hvalid as [[message Hmsg] Hvalid].
    rewrite fmap_cons. simpl.
    rewrite (answer_succeeding srv w text message Hscript Hmsg).
    rewrite IH by done. simpl. f_equal. f_equal.
    rewrite <- app_assoc. f_equal.
    by destruct (reply_frame srv text).
Qed.

(** X5.  On a socket whose [send_text] never raises, and as long as the
    texts validate, the loop does not end by itself: after the texts it
    awaits the next one, and what it has written is, in the order of the
    texts, the reply for each request.  The first text that does not
    validate ends the session: nothing is written for it and the texts
    after it are not read. *)
Theorem receive_loop_replies_in_order (srv : Server) (texts : list string)
    (w : WebSocket) :
  ws_send_script w = [] ->
  Forall (fun text => exists message, model_validate_json text = inr message) texts ->
  let w' := {| ws_send_script := [];
               ws_sent := ws_sent w ++ omap (reply_frame srv) texts;
               ws_closed := ws_closed w;
               ws_close_raises := ws_close_raises w |} in
  receive_loop srv (RecvText <$> texts) w = (w', AwaitingText) /\
  forall text validation_error later,
    model_validate_json text = inl validation_error ->
    receive_loop srv ((RecvText <$> texts) ++ RecvText text :: later) w
    = (w', Failed id_refused).
Proof.
  intros Hscript Hvalid w'. split.
  - rewrite <- (app_nil_r (RecvText <$> texts)).
    by rewrite receive_loop_valid_prefix.
  - intros text validation_error later Hbad.
    rewrite receive_loop_valid_prefix by done. fold w'.
    simpl. unfold answer. by rewrite Hbad.
Qed.

Lemma send_text_frames (w : WebSocket) (frame : string) :
  exists new,
    ws_sent (send_text w frame).1 = ws_sent w ++ new /\ (length new <= 1)%nat /\
    ((send_text w frame).2 <> None -> new = []) /\
    ws_closed (send_text w frame).1 = ws_closed w.
Proof.
  unfold send_text. destruct (ws_send_script w) as [|[e|] script]; simpl.
  - exists [frame]. by repeat split.
  - exists []. rewrite app_nil_r. repeat split; simpl; try done. lia.
  - exists [frame]. by repeat split.
Qed.

Lemma answer_frames (srv : Server) (w : WebSocket) (text : string) :
  exists new,
    ws_sent (answer srv w text).1 = ws_sent w ++ new /\ (length new <= 1)%nat /\
    ws_closed (answer srv w text).1 = ws_closed w.
Proof.
  unfold answer, send_error. simpl.
  destruct (model_validate_json text) as [bad|msg].
  { exists []. simpl. rewrite app_nil_r. repeat split; try done. simpl. lia. }
  destruct (_process_mcp_message srv msg) as [reply|].
  2:{ exists []. simpl. rewrite app_nil_r. repeat split; try done. simpl. lia. }
  destruct (send_text_frames w (model_dump_json (reply_root reply)))
    as (new & Hnew & Hlen & Hfail & Hcl).
  destruct (send_text w (model_dump_json (reply_root reply))) as [w1 [e|]] eqn:Hs;
    simpl in *; by exists new.
Qed.

(** X6.  Whatever the texts and whatever [send_text] does, the loop only
    adds to what was written on the socket, at most one frame for each
    text received, and it never closes the socket itself. *)
Theorem receive_loop_frames (srv : Server) (incoming : list Received)
    (w : WebSocket) :
  exists new,
    ws_sent (receive_loop srv incoming w).1 = ws_sent w ++ new /\
    (length new <= length incoming)%nat /\
    ws_closed (receive_loop srv incoming w).1 = ws_closed w.
Proof.
  revert w. induction incoming as [|[text|e] incoming IH]; intros w; simpl.
  - exists []. rewrite app_nil_r. repeat split; try done.
  - destruct (answer_frames srv w text) as (new & Hnew & Hlen & Hcl).
    destruct (answer srv w text) as [w1 [e|]]; simpl in *.
    + exists new. repeat split; try done. lia.
    + destruct (IH w1) as (new' & Hnew' & Hlen' & Hcl').
      exists (new ++ new'). rewrite Hnew', Hnew, Hcl', Hcl, <- app_assoc.
      repeat split; try done. rewrite length_app. lia.
  - exists []. rewrite app_nil_r. repeat split; try done. simpl. lia.
Qed.

(** X7.  A handler changes the registry under its own session id only:
    the entries of all other sessions are as before; while it awaits a text
    its socket is registered, and once the loop has ended, by a disconnect
    or by a failure, its id is not in the registry.  The client half of
    the transport is not touched. *)
Theorem handler_keeps_other_sessions (t : FastApiWebSocketTransport)
    (w : WebSocket) (incoming : list Received) (session_id : option string)
    (uuid : string) :
  let sid := default uuid session_id in
  let t' := (handle_fastapi_websocket t w incoming session_id uuid).1.1 in
  let ended := (handle_fastapi_websocket t w incoming session_id uuid).2 in
  (forall other, other <> sid ->
     active_connections t' !! other = active_connections t !! other) /\
  active_connections t' !! sid
  = match ended with AwaitingText => Some w | _ => None end /\
  external_ws_connection t' = external_ws_connection t /\
  external_connection_task t' = external_connection_task t /\
  pending_requests t' = pending_requests t /\
  responses t' = responses t /\
  events t' = events t.
Proof.
  intros sid t' ended. subst t' ended. unfold handle_fastapi_websocket.
  fold sid.
  destruct (receive_loop (mcp_server t) incoming w) as [w1 []]; simpl;
    repeat split; try done.
  - intros other Hne. by rewrite lookup_insert_ne.
  - by rewrite lookup_insert_eq.
  - intros other Hne. by rewrite lookup_delete_ne, lookup_insert_ne.
  - by rewrite lookup_delete_eq.
  - intros other Hne. by rewrite lookup_delete_ne, lookup_insert_ne.
  - by rewrite lookup_delete_eq.
Qed.

End MoreSessions.

Lemma receive_loop_replies_in_order_witness :
  let texts := [Codec.encode (RootRequest (request (IdStr "1") "initialize"));
                Codec.encode (RootNotification (notification "ping"));
                Codec.encode (RootRequest (tools_request (IdInt 2)))] in
  let w' := {| ws_send_script := [];
               ws_sent :=
                 ws_sent quiet_socket
                 ++ omap (reply_frame Codec.decode Codec.encode bare_server) texts;
               ws_closed := ws_closed quiet_socket;
               ws_close_raises := ws_close_raises quiet_socket |} in
  receive_loop Codec.decode Codec.encode bare_server (RecvText <$> texts) quiet_socket
  = (w', AwaitingText) /\
  receive_loop Codec.decode Codec.encode bare_server
    ((RecvText <$> texts)
     ++ RecvText malformed_text
        :: [RecvText (Codec.encode (RootRequest (tools_request (IdInt 3))))])
    quiet_socket
  = (w', Failed id_refused).
Proof.
  intros texts w'.
  assert (Forall (fun text => exists message, Codec.decode text = inr message) texts)
    as Hvalid.
  { repeat apply Forall_cons_2; [| | |apply Forall_nil_2];
      eexists; vm_compute; reflexivity. }
  pose proof (receive_loop_replies_in_order Codec.decode Codec.encode bare_server
                texts quiet_socket eq_refl Hvalid) as [Hloop Hends].
  split; [exact Hloop|].
  apply (Hends malformed_text "Invalid JSON-RPC message").
  vm_compute. reflexivity.
Defined.

(** ** Pending requests and their events *)

Section MoreCorrelator.

Variable model_validate_json : string -> string + JSONRPCMessage.
Variable model_dump_json : JSONRPCMessage -> string.

Local Abbreviation reachable := (reachable model_validate_json model_dump_json).
Local Abbreviation step := (step model_validate_json model_dump_json).
Local Abbreviation on_external_message := (on_external_message model_validate_json).
Local Abbreviation send_to_external_websocket :=
  (send_to_external_websocket model_dump_json).
Local Abbreviation send_requests := (send_requests model_dump_json).
Local Abbreviation handle_fastapi_websocket :=
  (handle_fastapi_websocket model_validate_json model_dump_json).

Lemma pending_injective_same (t t' : FastApiWebSocketTransport) :
  pending_requests t' = pending_requests t ->
  pending_injective t -> pending_injective t'.
Proof. unfold pending_injective. by intros ->. Qed.

Lemma pending_injective_empty (t : FastApiWebSocketTransport) :
  pending_requests t = ∅ -> pending_injective t.
Proof. intros He k1 k2 ev H. by rewrite He, lookup_empty in H. Qed.

Lemma disconnect_injective (t : FastApiWebSocketTransport) :
  pending_injective t -> pending_injective (disconnect_external_websocket t).
Proof.
  intros Hinj.
  destruct (disconnect_fields t) as (_ & _ & _ & _ & Hrun & Hidle).
  destruct (listener_running t).
  - apply pending_injective_empty. by apply Hrun.
  - eapply pending_injective_same; [|done]. by apply Hidle.
Qed.

Lemma step_injective (t t' : FastApiWebSocketTransport) :
  pending_allocated t -> pending_injective t -> step t t' -> pending_injective t'.
Proof.
  intros Hwf Hinj Hstep.
  destruct Hstep as [net t url|t msg|t request_id response_event|t msg Hrun
                    |t Hrun|t|t|t w incoming session_id uuid|t session_id].
  - unfold connect_to_external_websocket.
    destruct (connection_live t); [done|].
    by destruct (net url (connect_kwargs t)).
  - unfold send_to_external_websocket.
    destruct (external_ws_connection t) as [c|]; [|done].
    destruct (closed c); [done|].
    destruct (request_id_of msg) as [k|]; [|done].
    destruct (truthy k && is_request msg); [|done].
    intros k1 k2 ev. simpl.
    destruct (decide (k = k1)) as [<-|H1], (decide (k = k2)) as [<-|H2];
      rewrite ?lookup_insert_eq, ?lookup_insert_ne by done; try done.
    + intros [= <-] Hk2%Hwf. lia.
    + intros Hk1%Hwf [= <-]. lia.
    + apply Hinj.
  - unfold finish_send.
    destruct (is_set t response_event); intros k1 k2 ev; simpl;
      intros [_ H1]%lookup_delete_Some [_ H2]%lookup_delete_Some; eauto.
  - unfold on_external_message.
    destruct (model_validate_json msg) as [|[| |r|]]; try done.
    by destruct (pending_requests t !! str (resp_id r)).
  - by apply pending_injective_empty.
  - by apply disconnect_injective.
  - simpl. by apply disconnect_injective.
  - unfold handle_fastapi_websocket.
    by destruct (receive_loop _ _ _ _ _) as [w1 []].
  - done.
Qed.

(** X8.  In every state the transport can reach, each entry of
    [pending_requests] points at an event that was created, and no two keys
    point at the same event: a caller that is in the table is the only one
    woken through its entry. *)
Theorem pending_entries_distinct (t : FastApiWebSocketTransport) :
  reachable t ->
  (forall k ev, pending_requests t !! k = Some ev -> (ev < length (events t))%nat) /\
  (forall k1 k2 ev,
     pending_requests t !! k1 = Some ev -> pending_requests t !! k2 = Some ev ->
     k1 = k2).
Proof.
  intros Hreach. split.
  { by apply (reachable_inv _ _ t Hreach). }
  induction Hreach as [|t t' Hreach IH Hstep].
  - intros k1 k2 ev H. unfold __init__ in H. simpl in H.
    by rewrite lookup_empty in H.
  - eapply step_injective; [|exact IH|exact Hstep].
    by apply (reachable_inv _ _ t Hreach).
Qed.

Lemma set_all_keeps_set (evs : list nat) (store : list bool) (ev : nat) :
  store !! ev = Some true -> set_all evs store !! ev = Some true.
Proof.
  intros Hev. induction evs as [|ev' evs IH]; simpl; [done|].
  destruct (decide (ev' = ev)) as [->|Hne].
  - apply list_lookup_insert_eq. rewrite set_all_length. by eapply lookup_lt_Some.
  - by rewrite list_lookup_insert_ne.
Qed.

Lemma disconnect_keeps_set (t : FastApiWebSocketTransport) (ev : nat) :
  events t !! ev = Some true ->
  events (disconnect_external_websocket t) !! ev = Some true.
Proof.
  intros Hev.
  destruct (disconnect_fields t) as (_ & _ & _ & _ & Hrun & Hidle).
  destruct (listener_running t).
  - destruct (Hrun eq_refl) as [_ ->]. by apply set_all_keeps_set.
  - destruct (Hidle eq_refl) as [_ ->]. done.
Qed.

Lemma step_keeps_set (t t' : FastApiWebSocketTransport) (ev : nat) :
  step t t' -> events t !! ev = Some true -> events t' !! ev = Some true.
Proof.
  intros Hstep Hev.
  destruct Hstep as [net t url|t msg|t request_id response_event|t msg Hrun
                    |t Hrun|t|t|t w incoming session_id uuid|t session_id].
  - unfold connect_to_external_websocket.
    destruct (connection_live t); [done|].
    by destruct (net url (connect_kwargs t)).
  - unfold send_to_external_websocket.
    destruct (external_ws_connection t) as [c|]; [|done].
    destruct (closed c); [done|].
    destruct (request_id_of msg) as [k|]; [|done].
    destruct (truthy k && is_request msg); [|done].
    simpl. by apply lookup_app_l_Some.
  - unfold finish_send. by destruct (is_set t response_event).
  - unfold on_external_message.
    destruct (model_validate_json msg) as [|[| |r|]]; try done.
    destruct (pending_requests t !! str (resp_id r)) as [ev'|]; [|done].
    simpl. destruct (decide (ev' = ev)) as [->|Hne].
    + apply list_lookup_insert_eq. by eapply lookup_lt_Some.
    + by rewrite list_lookup_insert_ne.
  - simpl. by apply set_all_keeps_set.
  - by apply disconnect_keeps_set.
  - simpl. by apply disconnect_keeps_set.
  - unfold handle_fastapi_websocket.
    by destruct (receive_loop _ _ _ _ _) as [w1 []].
  - done.
Qed.

(** X9.  An event that is set stays set through every later operation of
    the transport: a caller that was woken cannot be put back to waiting. *)
Theorem set_event_stays_set (t t' : FastApiWebSocketTransport) (ev : nat) :
  rtc step t t' -> is_set t ev = true -> is_set t' ev = true.
Proof.
  assert (forall s, is_set s ev = true <-> events s !! ev = Some true) as Hset.
  { intros s. unfold is_set. destruct (events s !! ev) as [[]|]; naive_solver. }
  intros Hsteps. rewrite !Hset.
  induction Hsteps as [|t t1 t' Hstep _ IH]; [done|].
  intros Hev. apply IH. by eapply step_keeps_set.
Qed.

(** X10.  A message from the external server changes the transport only
    when it is a response whose key is in the table: then the response is
    stored under the key and the event of the entry is set.  In every case
    the table, the connection, the listener task and the inbound sessions
    are left as they are. *)
Theorem listener_touches_only_answers (t : FastApiWebSocketTransport)
    (message : string) :
  let t' := on_external_message t message in
  pending_requests t' = pending_requests t /\
  external_ws_connection t' = external_ws_connection t /\
  external_connection_task t' = external_connection_task t /\
  active_connections t' = active_connections t /\
  (t' = t \/
   exists resp ev,
     model_validate_json message = inr (RootResponse resp) /\
     pending_requests t !! str (resp_id resp) = Some ev /\
     responses t' = <[str (resp_id resp) := resp]> (responses t) /\
     events t' = <[ev := true]> (events t)).
Proof.
  intros t'. subst t'. unfold on_external_message.
  destruct (model_validate_json message) as [bad|[r|n|resp|e]];
    try by (repeat split; try done; left).
  destruct (pending_requests t !! str (resp_id resp)) as [ev|] eqn:Hp;
    [|by repeat split; try done; left].
  repeat split; try done. right. by exists resp, ev.
Qed.

(** X11.  Once a call has ended, by its response or by its timeout, a
    response that arrives for its key is dropped: the transport is as it
    was before that response. *)
Theorem late_response_dropped (t : FastApiWebSocketTransport)
    (request_id : string) (ev : nat) (frame : string) (resp : JSONRPCResponse) :
  model_validate_json frame = inr (RootResponse resp) ->
  str (resp_id resp) = request_id ->
  on_external_message (finish_send t request_id ev).1 frame
  = (finish_send t request_id ev).1.
Proof.
  intros Hframe Hid. unfold on_external_message. rewrite Hframe, Hid.
  unfold finish_send. destruct (is_set t ev); simpl; by rewrite lookup_delete_eq.
Qed.

(** X12.  A request under a key that is not in use, its response and the
    return of the call: the caller gets that response, and the table and
    the stored responses are again what they were before the request. *)
Theorem request_round_trip (t : FastApiWebSocketTransport) (r : JSONRPCRequest)
    (frame : string) (resp : JSONRPCResponse) :
  connection_live t = true ->
  truthy (str (req_id r)) = true ->
  pending_requests t !! str (req_id r) = None ->
  responses t !! str (req_id r) = None ->
  model_validate_json frame = inr (RootResponse resp) ->
  str (resp_id resp) = str (req_id r) ->
  let key := str (req_id r) in
  let ev := length (events t) in
  let t1 := (send_to_external_websocket t (RootRequest r)).1 in
  let returned := finish_send (on_external_message t1 frame) key ev in
  (send_to_external_websocket t (RootRequest r)).2 = SendWaiting key ev /\
  returned.2 = SendReturns (Some resp) /\
  pending_requests returned.1 = pending_requests t /\
  responses returned.1 = responses t.
Proof.
  intros Hlive Hkey Hfree Hnone Hframe Hid key ev t1 returned.
  destruct (connection_live_inv t Hlive) as (c & Hc & Hcl).
  subst returned t1. rewrite (send_request_live model_dump_json t r c Hc Hcl).
  simpl. rewrite Hkey. simpl. split; [done|].
  unfold on_external_message. rewrite Hframe, Hid. simpl.
  fold key. rewrite lookup_insert_eq.
  unfold finish_send, is_set. simpl.
  rewrite list_lookup_insert_eq by (rewrite length_app; simpl; lia). simpl.
  rewrite lookup_insert_eq, !delete_insert_eq, !delete_id by done.
  done.
Qed.

End MoreCorrelator.

(** ** Sending, connecting and disconnecting *)

Section MoreConnector.

Variable model_validate_json : string -> string + JSONRPCMessage.
Variable model_dump_json : JSONRPCMessage -> string.

Local Abbreviation reachable := (reachable model_validate_json model_dump_json).
Local Abbreviation on_external_message := (on_external_message model_validate_json).
Local Abbreviation send_to_external_websocket :=
  (send_to_external_websocket model_dump_json).
Local Abbreviation send_requests := (send_requests model_dump_json).

Lemma send_not_live (t : FastApiWebSocketTransport) (msg : JSONRPCMessage) :
  connection_live t = false ->
  send_to_external_websocket t msg
  = (t, SendRaises (ConnectionError "Not connected to external WebSocket")).
Proof.
  unfold connection_live, send_to_external_websocket.
  destruct (external_ws_connection t) as [c|]; [|done].
  by destruct (closed c).
Qed.

Lemma connection_lost_not_live (t : FastApiWebSocketTransport) :
  connection_live (connection_lost t) = false.
Proof.
  unfold connection_live, connection_lost. simpl.
  by destruct (external_ws_connection t).
Qed.

(** X13.  Without a live connection nothing is sent: on a transport that
    never connected, after [disconnect_external_websocket] and after the
    loss of the connection, [send_to_external_websocket] raises
    [ConnectionError] for every message and changes nothing. *)
Theorem send_without_connection (t : FastApiWebSocketTransport)
    (msg : JSONRPCMessage) srv url ct pi pt clt :
  let refused (s : FastApiWebSocketTransport) :=
    send_to_external_websocket s msg
    = (s, SendRaises (ConnectionError "Not connected to external WebSocket")) in
  refused (__init__ srv url ct pi pt clt) /\
  refused (disconnect_external_websocket t) /\
  refused (connection_lost t).
Proof.
  split; [done|]. split; apply send_not_live.
  - by destruct (disconnect_fields t) as (_ & ? & _).
  - apply connection_lost_not_live.
Qed.

Lemma send_live_connection (t : FastApiWebSocketTransport) (msg : JSONRPCMessage) c :
  external_ws_connection t = Some c -> closed c = false ->
  external_ws_connection (send_to_external_websocket t msg).1
  = Some (ws_send c (model_dump_json msg)).
Proof.
  intros Hc Hcl. unfold send_to_external_websocket. rewrite Hc, Hcl.
  destruct (request_id_of msg) as [k|]; [|done].
  by destruct (truthy k && is_request msg).
Qed.

(** X14.  A message that is no request, sent on a live connection, is
    written to the connection and the call returns [None] at once: no
    event is created and nothing is entered in the table. *)
Theorem send_non_request (t : FastApiWebSocketTransport) (msg : JSONRPCMessage) :
  connection_live t = true ->
  is_request msg = false ->
  let t' := (send_to_external_websocket t msg).1 in
  (send_to_external_websocket t msg).2 = SendReturns None /\
  pending_requests t' = pending_requests t /\
  responses t' = responses t /\
  events t' = events t /\
  (sent <$> external_ws_connection t')
  = (fun c => sent c ++ [model_dump_json msg]) <$> external_ws_connection t.
Proof.
  intros Hlive Hreq t'.
  destruct (connection_live_inv t Hlive) as (c & Hc & Hcl).
  subst t'. unfold send_to_external_websocket. rewrite Hc, Hcl, Hreq.
  destruct (request_id_of msg) as [k|]; rewrite ?andb_false_r; simpl;
    by rewrite ?Hc.
Qed.

(** X15.  Requests sent one after the other on a live connection are
    written to it in that order, each exactly once, whatever their ids,
    and the connection stays open. *)
Theorem send_requests_written_in_order (reqs : list JSONRPCRequest) :
  forall t c,
    external_ws_connection t = Some c -> closed c = false ->
    exists c',
      external_ws_connection (send_requests t reqs).1 = Some c' /\
      closed c' = false /\
      sent c' = sent c ++ ((fun r => model_dump_json (RootRequest r)) <$> reqs).
Proof.
  induction reqs as [|r reqs IH]; intros t c Hc Hcl.
  - exists c. simpl. by rewrite app_nil_r.
  - simpl.
    pose proof (send_live_connection t (RootRequest r) c Hc Hcl) as Hsend.
    destruct (send_to_external_websocket t (RootRequest r)) as [t1 o].
    simpl in Hsend.
    specialize (IH t1 _ Hsend Hcl).
    destruct (send_requests t1 reqs) as [t2 os]. simpl in *.
    destruct IH as (c' & Hc' & Hcl' & Hsent).
    exists c'. split; [done|]. split; [done|].
    by rewrite Hsent, <- app_assoc.
Qed.

End MoreConnector.

(** X23.  A request whose key is not the empty string, sent on a live
    connection, is left waiting on a new, unset event; when no response has
    set the event by the time the call runs again, the call raises
    [asyncio.TimeoutError] and the table has no entry for its key. *)
Theorem unanswered_request_times_out (model_dump_json : JSONRPCMessage -> string)
    (t : FastApiWebSocketTransport) (r : JSONRPCRequest) :
  connection_live t = true ->
  truthy (str (req_id r)) = true ->
  exists ev,
    let t1 := (send_to_external_websocket model_dump_json t (RootRequest r)).1 in
    (send_to_external_websocket model_dump_json t (RootRequest r)).2
    = SendWaiting (str (req_id r)) ev /\
    is_set t1 ev = false /\
    (finish_send t1 (str (req_id r)) ev).2 = SendRaises TimeoutError /\
    pending_requests (finish_send t1 (str (req_id r)) ev).1 !! str (req_id r) = None.
Proof. apply send_request_times_out. Qed.

(** ** Connection life cycle *)

Section LifeCycle.

Variable model_validate_json : string -> string + JSONRPCMessage.
Variable model_dump_json : JSONRPCMessage -> string.

Local Abbreviation reachable := (reachable model_validate_json model_dump_json).
Local Abbreviation on_external_message := (on_external_message model_validate_json).
Local Abbreviation send_to_external_websocket :=
  (send_to_external_websocket model_dump_json).

(** X16.  [connect_to_external_websocket] never touches the waiting
    callers or the inbound sessions.  When it returns the connection is
    live; when it raises, the exception is the one [websockets.connect]
    raised and the transport is unchanged, so the call can be repeated. *)
Theorem connect_keeps_waiters (net : Network) (t : FastApiWebSocketTransport)
    (url : string) :
  let t' := (connect_to_external_websocket net t url).1 in
  pending_requests t' = pending_requests t /\
  responses t' = responses t /\
  events t' = events t /\
  active_connections t' = active_connections t /\
  match (connect_to_external_websocket net t url).2 with
  | Returns => connection_live t' = true
  | Raises e => t' = t /\ net url (connect_kwargs t) = ConnectRaises e
  end.
Proof.
  intros t'. subst t'. unfold connect_to_external_websocket.
  destruct (connection_live t) eqn:Hlive; [done|].
  by destruct (net url (connect_kwargs t)) eqn:Hnet.
Qed.

(** X17.  [disconnect_external_websocket] is idempotent: a second call
    changes nothing. *)
Theorem disconnect_idempotent (t : FastApiWebSocketTransport) :
  disconnect_external_websocket (disconnect_external_websocket t)
  = disconnect_external_websocket t.
Proof.
  destruct (disconnect_fields t) as (Hrun & Hlive & _).
  by apply disconnect_idle.
Qed.

Lemma disconnect_config (t : FastApiWebSocketTransport) :
  connect_kwargs (disconnect_external_websocket t) = connect_kwargs t.
Proof.
  unfold disconnect_external_websocket.
  destruct (listener_running t);
    [destruct (connection_live (listener_finally t))|destruct (connection_live t)];
    done.
Qed.


(** X19.  When the connection goes down under the listener, every call
    whose event is in the table is woken and returns what was stored for
    it, [None] if nothing was; the table is empty and the connection is
    no longer live. *)
Theorem connection_lost_wakes_waiters (t : FastApiWebSocketTransport)
    (request_id : string) (ev : nat) :
  reachable t ->
  pending_requests t !! request_id = Some ev ->
  let t' := connection_lost t in
  pending_requests t' = ∅ /\
  connection_live t' = false /\
  is_set t' ev = true /\
  (finish_send t' request_id ev).2 = SendReturns (responses t !! request_id).
Proof.
  intros Hreach Hk t'.
  pose proof (reachable_inv _ _ t Hreach) as (Hwf & _).
  assert (is_set t' ev = true) as Hset.
  { unfold is_set. simpl.
    rewrite set_all_elem; [done| |by eapply Hwf].
    by eapply elem_of_pending_values. }
  split; [done|]. split.
  { unfold connection_live. simpl. by destruct (external_ws_connection t). }
  split; [done|].
  unfold finish_send. by rewrite Hset.
Qed.

(** X20.  [shutdown] calls [close] on every inbound session: each session
    of the registry is in the list of the sockets it went through, closed
    when its [close] did not raise and unchanged when it did, and the
    registry is empty whether or not a [close] raised. *)
Theorem shutdown_closes_every_session (t : FastApiWebSocketTransport)
    (session_id : string) (w : WebSocket) :
  active_connections t !! session_id = Some w ->
  active_connections (shutdown t).1 = ∅ /\
  length (shutdown t).2 = size (active_connections t) /\
  exists w',
    (session_id, w') ∈ (shutdown t).2 /\
    (ws_close_raises w = None -> ws_closed w' = true) /\
    (ws_close_raises w <> None -> w' = w).
Proof.
  intros Hw. split; [|split].
  - destruct (disconnect_fields (set_active_connections ∅ t)) as (_ & _ & Hact & _).
    simpl in *. by rewrite Hact.
  - simpl. by rewrite length_fmap, length_map_to_list.
  - exists (close_session w). split; [|split].
    + simpl. apply list_elem_of_fmap. exists (session_id, w). split; [done|].
      by apply elem_of_map_to_list.
    + unfold close_session. by intros ->.
    + unfold close_session. by destruct (ws_close_raises w).
Qed.

(** X21.  The operations of the client half leave the inbound sessions
    alone: connecting, sending, the end of a call, a message from the
    external server, the loss of the connection and disconnecting do not
    change [active_connections]. *)
Theorem client_operations_keep_sessions (t : FastApiWebSocketTransport)
    (net : Network) (url : string) (msg : JSONRPCMessage)
    (request_id : string) (ev : nat) (frame : string) :
  active_connections (connect_to_external_websocket net t url).1
  = active_connections t /\
  active_connections (send_to_external_websocket t msg).1 = active_connections t /\
  active_connections (finish_send t request_id ev).1 = active_connections t /\
  active_connections (on_external_message t frame) = active_connections t /\
  active_connections (connection_lost t) = active_connections t /\
  active_connections (disconnect_external_websocket t) = active_connections t.
Proof.
  repeat split.
  - unfold connect_to_external_websocket.
    destruct (connection_live t); [done|].
    by destruct (net url (connect_kwargs t)).
  - unfold send_to_external_websocket.
    destruct (external_ws_connection t) as [c|]; [|done].
    destruct (closed c); [done|].
    destruct (request_id_of msg) as [k|]; [|done].
    by destruct (truthy k && is_request msg).
  - unfold finish_send. by destruct (is_set t ev).
  - unfold on_external_message.
    destruct (model_validate_json frame) as [|[| |r|]]; try done.
    by destruct (pending_requests t !! str (resp_id r)).
  - by destruct (disconnect_fields t) as (_ & _ & ? & _).
Qed.

End LifeCycle.

(** ** The client example *)

Section MoreCaller.

Variable model_validate_json : string -> string + JSONRPCMessage.
Variable model_dump_json : JSONRPCMessage -> string.

Local Abbreviation reachable := (reachable model_validate_json model_dump_json).
Local Abbreviation on_external_message := (on_external_message model_validate_json).
Local Abbreviation send_to_external_websocket :=
  (send_to_external_websocket model_dump_json).
Local Abbreviation await_send := (await_send model_validate_json model_dump_json).
Local Abbreviation test_external_connection :=
  (test_external_connection model_validate_json model_dump_json).

Lemma on_external_message_task (t : FastApiWebSocketTransport) (frame : string) :
  listener_running (on_external_message t frame) = listener_running t /\
  active_connections (on_external_message t frame) = active_connections t.
Proof.
  unfold on_external_message.
  destruct (model_validate_json frame) as [|[| |r|]]; try done.
  by destruct (pending_requests t !! str (resp_id r)).
Qed.

Lemma reachable_arrivals (arrivals : list string) :
  forall t,
    reachable t -> listener_running t = true ->
    reachable (foldl on_external_message t arrivals) /\
    active_connections (foldl on_external_message t arrivals) = active_connections t.
Proof.
  induction arrivals as [|frame arrivals IH]; intros t Hreach Hrun; [done|].
  simpl. destruct (on_external_message_task t frame) as [Hrun' Hact].
  destruct (IH (on_external_message t frame)) as [Hr Ha].
  - eapply reachable_step; [exact Hreach|]. by apply step_message.
  - by rewrite Hrun'.
  - split; [done|]. by rewrite Ha.
Qed.

Lemma send_sessions (t : FastApiWebSocketTransport) (msg : JSONRPCMessage) :
  active_connections (send_to_external_websocket t msg).1 = active_connections t.
Proof.
  unfold send_to_external_websocket.
  destruct (external_ws_connection t) as [c|]; [|done].
  destruct (closed c); [done|].
  destruct (request_id_of msg) as [k|]; [|done].
  by destruct (truthy k && is_request msg).
Qed.

Lemma reachable_await_send (t : FastApiWebSocketTransport) (msg : JSONRPCMessage)
    (arrivals : list string) :
  reachable t ->
  reachable (await_send t msg arrivals).1 /\
  active_connections (await_send t msg arrivals).1 = active_connections t.
Proof.
  intros Hreach.
  assert (reachable (send_to_external_websocket t msg).1) as Hsent.
  { eapply reachable_step; [exact Hreach|]. apply step_send. }
  pose proof (send_sessions t msg) as Hact.
  unfold await_send.
  destruct (send_to_external_websocket t msg) as [t1 [e|r|k ev]] eqn:Hsend;
    simpl in *; try done.
  assert (listener_running t1 = true) as Hrun.
  { apply (reachable_inv _ _ t1 Hsent). intros Hempty.
    revert Hsend. unfold send_to_external_websocket.
    destruct (external_ws_connection t) as [c|]; [|done].
    destruct (closed c); [done|].
    destruct (request_id_of msg) as [k'|]; [|done].
    destruct (truthy k' && is_request msg); [|done].
    intros [= <- <- <-]. simpl in Hempty.
    by apply insert_non_empty in Hempty. }
  destruct (reachable_arrivals arrivals t1 Hsent Hrun) as [Hr Ha].
  split.
  - eapply reachable_step; [exact Hr|]. apply step_finish.
  - unfold finish_send. destruct (is_set _ ev); simpl; by rewrite Ha.
Qed.


End MoreCaller.

(** ** The further properties at concrete inputs *)

Lemma pending_entries_distinct_witness :
  (forall k ev, pending_requests waiting_transport !! k = Some ev ->
                (ev < length (events waiting_transport))%nat) /\
  (forall k1 k2 ev,
     pending_requests waiting_transport !! k1 = Some ev ->
     pending_requests waiting_transport !! k2 = Some ev -> k1 = k2).
Proof.
  apply (pending_entries_distinct Codec.decode Codec.encode waiting_transport).
  apply waiting_transport_reachable.
Defined.

Lemma set_event_stays_set_witness :
  is_set answered_transport 0 = true /\
  is_set (finish_send answered_transport "1" 0).1 0 = true.
Proof.
  split; [reflexivity|].
  apply (set_event_stays_set Codec.decode Codec.encode answered_transport
           (finish_send answered_transport "1" 0).1 0).
  - apply rtc_once. apply step_finish.
  - reflexivity.
Defined.

Lemma late_response_dropped_witness :
  on_external_message Codec.decode (finish_send answered_transport "1" 0).1
    (Codec.encode (RootResponse (tools_response (IdStr "1"))))
  = (finish_send answered_transport "1" 0).1.
Proof.
  apply (late_response_dropped Codec.decode answered_transport "1" 0
           (Codec.encode (RootResponse (tools_response (IdStr "1"))))
           (tools_response (IdStr "1"))).
  - vm_compute. reflexivity.
  - reflexivity.
Defined.

Lemma request_round_trip_witness :
  let r := tools_request (IdStr "1") in
  let frame := Codec.encode (RootResponse (tools_response (IdStr "1"))) in
  let t1 := (send_to_external_websocket Codec.encode connected_transport
               (RootRequest r)).1 in
  let returned := finish_send (on_external_message Codec.decode t1 frame) "1"
                    (length (events connected_transport)) in
  (send_to_external_websocket Codec.encode connected_transport (RootRequest r)).2
  = SendWaiting "1" (length (events connected_transport)) /\
  returned.2 = SendReturns (Some (tools_response (IdStr "1"))) /\
  pending_requests returned.1 = pending_requests connected_transport /\
  responses returned.1 = responses connected_transport.
Proof.
  apply (request_round_trip Codec.decode Codec.encode connected_transport
           (tools_request (IdStr "1"))
           (Codec.encode (RootResponse (tools_response (IdStr "1"))))
           (tools_response (IdStr "1"))).
  - reflexivity.
  - reflexivity.
  - reflexivity.
  - reflexivity.
  - vm_compute. reflexivity.
  - reflexivity.
Defined.

Lemma unanswered_request_times_out_witness :
  exists ev,
    let t1 := (send_to_external_websocket Codec.encode connected_transport
                 (RootRequest (tools_request (IdInt 7)))).1 in
    (send_to_external_websocket Codec.encode connected_transport
       (RootRequest (tools_request (IdInt 7)))).2
    = SendWaiting (str (IdInt 7)) ev /\
    is_set t1 ev = false /\
    (finish_send t1 (str (IdInt 7)) ev).2 = SendRaises TimeoutError /\
    pending_requests (finish_send t1 (str (IdInt 7)) ev).1 !! str (IdInt 7) = None.
Proof.
  apply (unanswered_request_times_out Codec.encode connected_transport
           (tools_request (IdInt 7))).
  - reflexivity.
  - vm_compute. reflexivity.
Defined.

Lemma send_non_request_witness :
  let msg := RootNotification (notification "notifications/initialized") in
  let t' := (send_to_external_websocket Codec.encode connected_transport msg).1 in
  (send_to_external_websocket Codec.encode connected_transport msg).2
  = SendReturns None /\
  pending_requests t' = pending_requests connected_transport /\
  responses t' = responses connected_transport /\
  events t' = events connected_transport /\
  (sent <$> external_ws_connection t')
  = (fun c => sent c ++ [Codec.encode msg])
      <$> external_ws_connection connected_transport.
Proof.
  apply (send_non_request Codec.encode connected_transport
           (RootNotification (notification "notifications/initialized"))).
  - reflexivity.
  - reflexivity.
Defined.

Lemma send_requests_written_in_order_witness :
  exists c',
    external_ws_connection
      (send_requests Codec.encode connected_transport
         [tools_request (IdInt 1); tools_request (IdStr "1");
          tools_request (IdStr EmptyString)]).1 = Some c' /\
    closed c' = false /\
    sent c'
    = sent fresh_connection
      ++ ((fun r => Codec.encode (RootRequest r))
            <$> [tools_request (IdInt 1); tools_request (IdStr "1");
                 tools_request (IdStr EmptyString)]).
Proof.
  apply (send_requests_written_in_order Codec.encode
           [tools_request (IdInt 1); tools_request (IdStr "1");
            tools_request (IdStr EmptyString)]
           connected_transport fresh_connection).
  - reflexivity.
  - reflexivity.
Defined.


Lemma connection_lost_wakes_waiters_witness :
  let t' := connection_lost waiting_transport in
  pending_requests t' = ∅ /\
  connection_live t' = false /\
  is_set t' 0 = true /\
  (finish_send t' "1" 0).2 = SendReturns (responses waiting_transport !! "1").
Proof.
  apply (connection_lost_wakes_waiters Codec.decode Codec.encode
           waiting_transport "1" 0).
  - apply waiting_transport_reachable.
  - vm_compute. reflexivity.
Defined.

Lemma shutdown_closes_every_session_witness :
  active_connections (shutdown two_sessions_transport).1 = ∅ /\
  length (shutdown two_sessions_transport).2
  = size (active_connections two_sessions_transport) /\
  exists w',
    ("uuid-2", w') ∈ (shutdown two_sessions_transport).2 /\
    (ws_close_raises stubborn_socket = None -> ws_closed w' = true) /\
    (ws_close_raises stubborn_socket <> None -> w' = stubborn_socket).
Proof.
  apply (shutdown_closes_every_session two_sessions_transport "uuid-2"
           stubborn_socket).
  vm_compute. reflexivity.
Defined.

